(** * dreamdocs: the document conversion pipeline

    A shallow embedding of [src/server/services/notion.ts] (page-id
    extraction, paginated block retrieval, block-tree linearisation, rich-text
    composition) and of [src/server/services/markdown.ts] (slugs, table of
    contents and title extraction over the markdown-it token stream), with the
    properties the specification states about them. *)

From Stdlib Require Import List String Ascii NArith Arith Bool Lia.
From Stdlib Require Import DecimalString.
Import ListNotations.

(** ** JavaScript strings

    A JavaScript string is a sequence of UTF-16 code units.  The literals
    of the source, which are ASCII but for one emoji, are written
    [js "..."]. *)

Module JS.

Definition codeunit := N.
Definition jsstring := list codeunit.

Definition js (s : string) : jsstring :=
  List.map N_of_ascii (list_ascii_of_string s).

(** [ToBoolean] on a string: only the empty string is falsy. *)
Definition truthy (s : jsstring) : bool :=
  match s with [] => false | _ :: _ => true end.

(** [x || d] on an optional string: [undefined], [null] and [''] give [d]. *)
Definition orElse (x : option jsstring) (d : jsstring) : jsstring :=
  match x with
  | Some s => if truthy s then s else d
  | None => d
  end.

(** [ToBoolean] on an optional string. *)
Definition truthyOpt (x : option jsstring) : bool :=
  match x with Some s => truthy s | None => false end.

(** [Array.prototype.join] on an array of strings. *)
Fixpoint join (sep : jsstring) (parts : list jsstring) : jsstring :=
  match parts with
  | [] => []
  | [p] => p
  | p :: rest => p ++ sep ++ join sep rest
  end.

(** [String.prototype.repeat]. *)
Fixpoint repeat (s : jsstring) (n : nat) : jsstring :=
  match n with
  | O => []
  | S k => s ++ repeat s k
  end.

Local Open Scope N_scope.

Definition inRange (lo hi c : codeunit) : bool :=
  (lo <=? c) && (c <=? hi).

Definition isDigit (c : codeunit) : bool := inRange 48 57 c.
Definition isUpper (c : codeunit) : bool := inRange 65 90 c.
Definition isLower (c : codeunit) : bool := inRange 97 122 c.

(** The class [\w] of a regular expression without the [u] flag:
    [A-Za-z0-9_]. *)
Definition isWord (c : codeunit) : bool :=
  isUpper c || isLower c || isDigit c || (c =? 95).

(** The class [\s]: the white space and line terminator code points of
    ECMAScript, which are also what [String.prototype.trim] removes. *)
Definition isSpace (c : codeunit) : bool :=
  inRange 9 13 c || (c =? 32) || (c =? 160) || (c =? 5760)
  || inRange 8192 8202 c || (c =? 8232) || (c =? 8233)
  || (c =? 8239) || (c =? 8287) || (c =? 12288) || (c =? 65279).

(** The class [[a-f0-9]] under the [i] flag. *)
Definition isHex (c : codeunit) : bool :=
  isDigit c || inRange 97 102 c || inRange 65 70 c.

Definition hyphen : codeunit := 45.
Definition question : codeunit := 63.

(** [String.prototype.toLowerCase], one code unit at a time.  The Unicode
    case mapping is written out for every code unit whose lower-case image
    contains an ASCII character: the Latin capitals, U+0130 (LATIN CAPITAL
    LETTER I WITH DOT ABOVE, which maps to i followed by U+0307) and U+212A
    (KELVIN SIGN, which maps to k).  Every other code unit is outside
    [\w], [\s] and [-] before and after the mapping and is left as it
    is. *)
Definition lowerUnit (c : codeunit) : jsstring :=
  if isUpper c then [(c + 32)]
  else if (c =? 304) then [105; 775]
  else if (c =? 8490) then [107]
  else [c].

Definition toLowerCase (s : jsstring) : jsstring := flat_map lowerUnit s.

Fixpoint dropWhile (p : codeunit -> bool) (s : jsstring) : jsstring :=
  match s with
  | [] => []
  | c :: r => if p c then dropWhile p r else s
  end.

(** [String.prototype.trim]. *)
Definition trim (s : jsstring) : jsstring :=
  rev (dropWhile isSpace (rev (dropWhile isSpace s))).

(** [s.replace(/[\s]+/g, '-')]: every maximal run of white space becomes
    one hyphen.  [inRun] tells that the previous code unit was white
    space. *)
Fixpoint collapseSpaceFrom (inRun : bool) (s : jsstring) : jsstring :=
  match s with
  | [] => []
  | c :: r =>
      if isSpace c
      then if inRun then collapseSpaceFrom true r
           else hyphen :: collapseSpaceFrom true r
      else c :: collapseSpaceFrom false r
  end.

Definition collapseSpace (s : jsstring) : jsstring :=
  collapseSpaceFrom false s.

(** [s.replace(/[^\w-]/g, '')]. *)
Definition stripNonWord (s : jsstring) : jsstring :=
  filter (fun c => isWord c || (c =? hyphen)) s.

(** [s.replace(/-/g, '')]. *)
Definition removeHyphens (s : jsstring) : jsstring :=
  filter (fun c => negb (c =? hyphen)) s.

Local Close Scope N_scope.

(** Strict equality [===] of two strings. *)
Fixpoint eqb (s t : jsstring) : bool :=
  match s, t with
  | [], [] => true
  | c :: s', d :: t' => N.eqb c d && eqb s' t'
  | _, _ => false
  end.

(** The line feed of a template literal or of ['\n']. *)
Definition nl : jsstring := [10%N].

(** ** Regular expressions of the shape [(C{n})(?:\?|$)]

    [takeRun p n s] consumes exactly [n] code units of class [p] at the
    head of [s]; [atBoundary] is the group [(?:\?|$)], where [$] without
    the [m] flag is the end of the input. *)
Fixpoint takeRun (p : codeunit -> bool) (n : nat) (s : jsstring)
  : option (jsstring * jsstring) :=
  match n with
  | O => Some ([], s)
  | S k =>
      match s with
      | [] => None
      | c :: r =>
          if p c
          then match takeRun p k r with
               | Some (m, rest) => Some (c :: m, rest)
               | None => None
               end
          else None
      end
  end.

Definition atBoundary (rest : jsstring) : bool :=
  match rest with
  | [] => true
  | c :: _ => N.eqb c question
  end.

Definition matchHere (p : codeunit -> bool) (n : nat) (s : jsstring)
  : option jsstring :=
  match takeRun p n s with
  | Some (m, rest) => if atBoundary rest then Some m else None
  | None => None
  end.

(** [s.match(/(C{n})(?:\?|$)/)]: the first capture group of the leftmost
    match, trying every start index from the left. *)
Fixpoint search (p : codeunit -> bool) (n : nat) (s : jsstring)
  : option jsstring :=
  match matchHere p n s with
  | Some m => Some m
  | None =>
      match s with
      | [] => None
      | _ :: r => search p n r
      end
  end.

(** [/^C{n}$/.test(s)]. *)
Definition testExact (p : codeunit -> bool) (n : nat) (s : jsstring) : bool :=
  Nat.eqb (List.length s) n && forallb p s.

(** The double quote of a string or template literal. *)
Definition dq : jsstring := [34%N].

(** [s.split(/\s+/)]: the pieces between the maximal runs of white space,
    the empty ones at both ends included.  [current] holds the piece being
    read, last code unit first, and [inRun] tells that the previous code
    unit was white space. *)
Fixpoint splitSpace (current : jsstring) (inRun : bool) (s : jsstring)
  : list jsstring :=
  match s with
  | [] => [rev current]
  | c :: r =>
      if isSpace c
      then if inRun then splitSpace [] true r
           else rev current :: splitSpace [] true r
      else splitSpace (c :: current) false r
  end.

(** [s.slice(0, n)]. *)
Definition sliceTo (n : nat) (s : jsstring) : jsstring := firstn n s.

End JS.

Import JS.

(** ** [notion.ts] *)

Module Notion.

(** *** Page identifiers (lines 39-61) *)

Definition isHexOrHyphen (c : codeunit) : bool :=
  isHex c || N.eqb c hyphen.

Definition extractPageId (urlOrId : jsstring) : option jsstring :=
  let cleanId := removeHyphens urlOrId in
  if testExact isHex 32 cleanId then Some cleanId
  else
    match search isHex 32 urlOrId with
    | Some m => Some m
    | None =>
        match search isHexOrHyphen 36 urlOrId with
        | Some m => Some (removeHyphens m)
        | None => None
        end
    end.

(** The first steps of [fetchNotionPage] (lines 66-75): what the caller
    gets before any request is made.  [configured] tells whether
    [getClient] returned a client. *)
Inductive Checked :=
| Throws (message : jsstring)
| PageId (pageId : jsstring).

Definition fetchNotionPage_check (configured : bool) (urlOrId : jsstring)
  : Checked :=
  if negb configured
  then Throws (js "Notion integration is not configured. "
                 ++ js "Set NOTION_API_KEY environment variable.")
  else
    match extractPageId urlOrId with
    | Some pageId =>
        if truthy pageId then PageId pageId
        else Throws (js "Invalid Notion page URL or ID")
    | None => Throws (js "Invalid Notion page URL or ID")
    end.

(** *** Rich text (lines 317-348) *)

Record Annotations := {
  bold : bool;
  italic : bool;
  strikethrough : bool;
  code : bool
}.

Record RichText := {
  plain_text : option jsstring;
  annotations : option Annotations;
  href : option jsstring
}.

(** [text.annotations?.flag]. *)
Definition flag (f : Annotations -> bool) (text : RichText) : bool :=
  match annotations text with
  | Some a => f a
  | None => false
  end.

(** The callback of [richText.map]: [content] is reassigned in turn by
    each of the five tests. *)
Definition formatSpan (text : RichText) : jsstring :=
  let content := orElse (plain_text text) [] in
  let content :=
    if flag bold text then js "**" ++ content ++ js "**" else content in
  let content :=
    if flag italic text then js "*" ++ content ++ js "*" else content in
  let content :=
    if flag strikethrough text then js "~~" ++ content ++ js "~~"
    else content in
  let content :=
    if flag code text then js "`" ++ content ++ js "`" else content in
  let content :=
    match href text with
    | Some h =>
        if truthy h then js "[" ++ content ++ js "](" ++ h ++ js ")"
        else content
    | None => content
    end in
  content.

(** [None] stands for a missing value or one that is not an array. *)
Definition richTextToMarkdown (richText : option (list RichText)) : jsstring :=
  match richText with
  | None => []
  | Some spans => join [] (List.map formatSpan spans)
  end.

(** *** Blocks *)

(** The payload [block[block.type]].  Every field is optional, as every
    access in the source is guarded ([data?.field]); a missing payload
    behaves as one with no field. *)
Record BlockData := {
  rich_text : option (list RichText);
  checked : bool;
  language : option jsstring;
  icon_emoji : option jsstring;
  data_type : option jsstring;
  external_url : option jsstring;
  file_url : option jsstring;
  caption : option (list RichText);
  url : option jsstring;
  cells : option (list (list RichText))
}.

Definition emptyData : BlockData :=
  {| rich_text := None; checked := false; language := None;
     icon_emoji := None; data_type := None; external_url := None;
     file_url := None; caption := None; url := None; cells := None |}.

(** A block as the API returns it; [children] is absent until
    [fetchAllBlocks] fills it in. *)
#[local] Unset Elimination Schemes.
Inductive Block := mkBlock {
  id : jsstring;
  type : jsstring;
  data : BlockData;
  has_children : bool;
  children : option (list Block)
}.
#[local] Set Elimination Schemes.

(** The cases of the [switch (type)] of [blockToMarkdown]. *)
Inductive Kind :=
| Paragraph | Heading1 | Heading2 | Heading3
| BulletedListItem | NumberedListItem | ToDo | Toggle | Code | Quote
| Callout | Divider | Image | Bookmark | LinkPreview | Table | TableRow
| ColumnList | Column | Unknown.

Definition kinds : list (string * Kind) :=
  [ ("paragraph", Paragraph); ("heading_1", Heading1);
    ("heading_2", Heading2); ("heading_3", Heading3);
    ("bulleted_list_item", BulletedListItem);
    ("numbered_list_item", NumberedListItem); ("to_do", ToDo);
    ("toggle", Toggle); ("code", Code); ("quote", Quote);
    ("callout", Callout); ("divider", Divider); ("image", Image);
    ("bookmark", Bookmark); ("link_preview", LinkPreview);
    ("table", Table); ("table_row", TableRow);
    ("column_list", ColumnList); ("column", Column) ]%string.

Fixpoint lookupKind (t : jsstring) (table : list (string * Kind)) : Kind :=
  match table with
  | [] => Unknown
  | (name, k) :: rest => if eqb t (js name) then k else lookupKind t rest
  end.

Definition kindOf (t : jsstring) : Kind := lookupKind t kinds.

(** The default callout icon, U+1F4A1 as a surrogate pair. *)
Definition bulb : jsstring := [55357%N; 56481%N].

(** The loop of [blocksToMarkdown] (lines 177-188) over the per-block
    conversion [convert]: a fragment is pushed only when it is truthy. *)
Definition pushLines (convert : Block -> jsstring) (blocks : list Block)
  : list jsstring :=
  fold_left
    (fun lines block =>
       let md := convert block in
       if truthy md then lines ++ [md] else lines)
    blocks [].

Definition joinBlocks (convert : Block -> jsstring) (blocks : list Block)
  : jsstring :=
  join (nl ++ nl) (pushLines convert blocks).

(** [row.table_row?.cells || []]: the payload is stored under the key
    named by the block's type. *)
Definition rowCells (row : Block) : list (list RichText) :=
  if eqb (type row) (js "table_row")
  then match cells (data row) with
       | Some cs => cs
       | None => []
       end
  else [].

Definition pipeLine (cellTexts : list jsstring) : jsstring :=
  js "| " ++ join (js " | ") cellTexts ++ js " |".

(** The loop of [tableToMarkdown] from index [i] on. *)
Fixpoint tableLines (i : nat) (rows : list Block) : list jsstring :=
  match rows with
  | [] => []
  | row :: rest =>
      let cs := rowCells row in
      let cellTexts :=
        List.map (fun cell => richTextToMarkdown (Some cell)) cs in
      let line := pipeLine cellTexts in
      let separator :=
        if Nat.eqb i 0
        then [pipeLine (List.map (fun _ => js "---") cs)]
        else [] in
      line :: separator ++ tableLines (S i) rest
  end.

(** Lines 294-312. *)
Definition tableToMarkdown (rows : list Block) : jsstring :=
  if Nat.eqb (List.length rows) 0 then []
  else join nl (tableLines 0 rows).

(** Lines 193-289. *)
Fixpoint blockToMarkdown (block : Block) (depth : nat) {struct block}
  : jsstring :=
  let d := data block in
  let nested (depth' : nat) : jsstring :=
    match children block with
    | Some cs => joinBlocks (fun b => blockToMarkdown b depth') cs
    | None => []
    end in
  match kindOf (type block) with
  | Paragraph => richTextToMarkdown (rich_text d)
  | Heading1 => js "# " ++ richTextToMarkdown (rich_text d)
  | Heading2 => js "## " ++ richTextToMarkdown (rich_text d)
  | Heading3 => js "### " ++ richTextToMarkdown (rich_text d)
  | BulletedListItem =>
      let indent := repeat (js "  ") depth in
      let content := richTextToMarkdown (rich_text d) in
      let cs := nested (S depth) in
      indent ++ js "- " ++ content ++ (if truthy cs then nl ++ cs else [])
  | NumberedListItem =>
      let indent := repeat (js "  ") depth in
      let content := richTextToMarkdown (rich_text d) in
      let cs := nested (S depth) in
      indent ++ js "1. " ++ content ++ (if truthy cs then nl ++ cs else [])
  | ToDo =>
      let mark := if checked d then js "x" else js " " in
      js "- [" ++ mark ++ js "] " ++ richTextToMarkdown (rich_text d)
  | Toggle =>
      let summary := richTextToMarkdown (rich_text d) in
      let cs := nested depth in
      js "<details>" ++ nl ++ js "<summary>" ++ summary ++ js "</summary>"
        ++ nl ++ nl ++ cs ++ nl ++ js "</details>"
  | Code =>
      let lang := orElse (language d) [] in
      let content := richTextToMarkdown (rich_text d) in
      js "```" ++ lang ++ nl ++ content ++ nl ++ js "```"
  | Quote => js "> " ++ richTextToMarkdown (rich_text d)
  | Callout =>
      let icon := orElse (icon_emoji d) bulb in
      let content := richTextToMarkdown (rich_text d) in
      js "> " ++ icon ++ js " " ++ content
  | Divider => js "---"
  | Image =>
      let u :=
        match data_type d with
        | Some t => if eqb t (js "external") then external_url d else file_url d
        | None => file_url d
        end in
      let cap :=
        match caption d with
        | Some c => richTextToMarkdown (Some c)
        | None => []
        end in
      match u with
      | Some u' =>
          if truthy u'
          then if truthy cap
               then js "![" ++ cap ++ js "](" ++ u' ++ js ")" ++ nl
                      ++ js "*" ++ cap ++ js "*"
               else js "![Image](" ++ u' ++ js ")"
          else []
      | None => []
      end
  | Bookmark | LinkPreview =>
      match url d with
      | Some u =>
          if truthy u then js "[" ++ u ++ js "](" ++ u ++ js ")" else []
      | None => []
      end
  | Table =>
      match children block with
      | Some rows => tableToMarkdown rows
      | None => []
      end
  | TableRow => []
  | ColumnList => nested depth
  | Column => nested depth
  | Unknown =>
      match rich_text d with
      | Some rt => richTextToMarkdown (Some rt)
      | None => []
      end
  end.

(** Lines 177-188. *)
Definition blocksToMarkdown (blocks : list Block) (depth : nat) : jsstring :=
  joinBlocks (fun block => blockToMarkdown block depth) blocks.

(** *** Retrieval (lines 149-172) *)

(** One answer of [client.blocks.children.list]. *)
Record Response := {
  results : list Block;
  has_more : bool;
  next_cursor : option jsstring
}.

(** The remote source: block id and [start_cursor] to an answer, or
    [None] when the request is rejected. *)
Definition Provider := jsstring -> option jsstring -> option Response.

(** What an [async] function comes to: a value, a rejection, or, in the
    model only, a loop cut short for lack of fuel. *)
Inductive Outcome (A : Type) :=
| Done (a : A)
| Rejected
| OutOfFuel.

Arguments Done {A} a.
Arguments Rejected {A}.
Arguments OutOfFuel {A}.

Definition bind {A B} (m : Outcome A) (k : A -> Outcome B) : Outcome B :=
  match m with
  | Done a => k a
  | Rejected => Rejected
  | OutOfFuel => OutOfFuel
  end.

(** The [do ... while (cursor)] loop; [blocks] is the array built so
    far. *)
Fixpoint fetchPages (fuel : nat) (list_children : Provider)
  (blockId : jsstring) (cursor : option jsstring) (blocks : list Block)
  : Outcome (list Block) :=
  match fuel with
  | O => OutOfFuel
  | S fuel' =>
      match list_children blockId cursor with
      | None => Rejected
      | Some response =>
          let blocks := blocks ++ results response in
          let cursor :=
            if has_more response then next_cursor response else None in
          if truthyOpt cursor
          then fetchPages fuel' list_children blockId cursor blocks
          else Done blocks
      end
  end.

(** [block.children = cs]. *)
Definition setChildren (block : Block) (cs : list Block) : Block :=
  mkBlock (id block) (type block) (data block) (has_children block) (Some cs).

(** The [for (const block of blocks)] loop, with [expand] the recursive
    call. *)
Fixpoint fillChildren (expand : jsstring -> Outcome (list Block))
  (blocks : list Block) : Outcome (list Block) :=
  match blocks with
  | [] => Done []
  | block :: rest =>
      bind (if has_children block
            then bind (expand (id block))
                   (fun cs => Done (setChildren block cs))
            else Done block)
        (fun block' =>
           bind (fillChildren expand rest)
             (fun rest' => Done (block' :: rest')))
  end.

(** Lines 149-172: the pages of [blockId] first, then the children of
    every block that has some.  [fuel] bounds the number of requests of
    one loop and the depth of the recursion. *)
Fixpoint fetchAllBlocks (fuel : nat) (list_children : Provider)
  (blockId : jsstring) : Outcome (list Block) :=
  match fuel with
  | O => OutOfFuel
  | S fuel' =>
      bind (fetchPages fuel list_children blockId None [])
        (fillChildren (fetchAllBlocks fuel' list_children))
  end.

(** The retrieval and conversion steps of [fetchNotionPage]
    (lines 84-87). *)
Definition fetchMarkdown (fuel : nat) (list_children : Provider)
  (pageId : jsstring) : Outcome jsstring :=
bind (fetchAllBlocks fuel list_children pageId)
  (fun blocks => Done (blocksToMarkdown blocks 0)).

(** *** Page titles (lines 100-118) *)

(** One item of a title property. *)
Record TitleItem := {
  item_plain_text : option jsstring
}.

(** A property of a page, with the fields this code reads. *)
Record PageProperty := {
  property_type : option jsstring;
  property_title : option (list TitleItem)
}.

(** A page: its properties by name, in the order [Object.values] lists
    them. *)
Record Page := {
  properties : option (list (jsstring * PageProperty))
}.

(** [page.properties?.name]. *)
Definition property (page : Page) (name : jsstring) : option PageProperty :=
  match properties page with
  | Some entries =>
      option_map snd (find (fun entry => eqb (fst entry) name) entries)
  | None => None
  end.

(** [prop?.title?.[0]?.plain_text]. *)
Definition firstPlainText (prop : option PageProperty) : option jsstring :=
  match prop with
  | Some p =>
      match property_title p with
      | Some (item :: _) => item_plain_text item
      | _ => None
      end
  | None => None
  end.

(** The test of the loop over [Object.values(page.properties || {})]. *)
Definition isTitleProperty (prop : PageProperty) : bool :=
  match property_type prop with
  | Some t => eqb t (js "title") && truthyOpt (firstPlainText (Some prop))
  | None => false
  end.

Definition extractPageTitle (page : Page) : jsstring :=
  if truthyOpt (firstPlainText (property page (js "title")))
  then orElse (firstPlainText (property page (js "title"))) []
  else if truthyOpt (firstPlainText (property page (js "Name")))
  then orElse (firstPlainText (property page (js "Name"))) []
  else
    let values :=
      match properties page with
      | Some entries => List.map snd entries
      | None => []
      end in
    match find isTitleProperty values with
    | Some prop => orElse (firstPlainText (Some prop)) []
    | None => js "Untitled"
    end.

End Notion.

(** ** [markdown.ts] *)

Module Markdown.

(** The [slugify] option handed to the anchor plug-in (lines 28-33). *)
Definition slugify (s : jsstring) : jsstring :=
  stripNonWord (collapseSpace (trim (toLowerCase s))).

(** A markdown-it token, with the fields this code reads. *)
Record Token := {
  type : jsstring;
  tag : jsstring;
  content : jsstring
}.

Record TocEntry := {
  id : jsstring;
  text : jsstring;
  level : N
}.

Record MarkdownResult := {
  html : jsstring;
  toc : list TocEntry;
  title : option jsstring
}.

(** [s.slice(1)]. *)
Definition slice1 (s : jsstring) : jsstring := tl s.

Fixpoint digitsValue (acc : N) (s : jsstring) : N :=
  match s with
  | [] => acc
  | c :: r =>
      if isDigit c then digitsValue (10 * acc + (c - 48))%N r else acc
  end.

Definition leadingDigits (s : jsstring) : option N :=
  match s with
  | [] => None
  | c :: _ => if isDigit c then Some (digitsValue 0%N s) else None
  end.

(** [parseInt(s, 10)]: leading white space and a [+] are skipped and the
    longest prefix of decimal digits is read; [None] is [NaN].  A [-]
    gives [None] too: the only use of the result is the test
    [level >= 2 && level <= 3], which [NaN] and every number read after a
    minus sign fail alike. *)
Definition parseInt (s : jsstring) : option N :=
  match dropWhile isSpace s with
  | [] => None
  | c :: r =>
      if (c =? 43)%N then leadingDigits r
      else if (c =? 45)%N then None
      else leadingDigits (c :: r)
  end.

(** The body of the loop of [extractToc] at index [i]: [token] is
    [tokens[i]] and [later] the tokens after it, so that [tokens[i + 1]]
    is the head of [later]. *)
Definition tocStep (token : Token) (later : list Token)
  (toc : list TocEntry) : list TocEntry :=
  if eqb (type token) (js "heading_open") then
    match parseInt (slice1 (tag token)) with
    | Some level =>
        if ((2 <=? level) && (level <=? 3))%N then
          match later with
          | contentToken :: _ =>
              if eqb (type contentToken) (js "inline") then
                let text := content contentToken in
                let id :=
                  stripNonWord (collapseSpace (trim (toLowerCase text))) in
                toc ++ [{| id := id; text := text; level := level |}]
              else toc
          | [] => toc
          end
        else toc
    | None => toc
    end
  else toc.

Fixpoint tocLoop (tokens : list Token) (toc : list TocEntry)
  : list TocEntry :=
  match tokens with
  | [] => toc
  | token :: later => tocLoop later (tocStep token later toc)
  end.

(** Lines 42-66. *)
Definition extractToc (tokens : list Token) : list TocEntry :=
  tocLoop tokens [].

(** Lines 71-82. *)
Fixpoint extractTitle (tokens : list Token) : option jsstring :=
  match tokens with
  | [] => None
  | token :: later =>
      if eqb (type token) (js "heading_open") && eqb (tag token) (js "h1")
      then
        match later with
        | contentToken :: _ =>
            if eqb (type contentToken) (js "inline")
            then Some (content contentToken)
            else extractTitle later
        | [] => extractTitle later
        end
      else extractTitle later
  end.

(** *** The markdown-it instance

    [md] is the configured markdown-it object.  Its parser and its token
    renderer are taken as they are; what matters here is which of them
    [parseMarkdown] runs, and on what.  Every run of the parser is
    recorded with the source it was given. *)
Record MarkdownIt := {
  parse : jsstring -> list Token;
  renderTokens : list Token -> jsstring
}.

Definition Logged (A : Type) : Type := list jsstring -> A * list jsstring.

Definition ret {A} (a : A) : Logged A := fun log => (a, log).

Definition bind {A B} (m : Logged A) (k : A -> Logged B) : Logged B :=
  fun log => let (a, log') := m log in k a log'.

Notation "x <- m ;; k" := (bind m (fun x => k))
  (at level 61, m at next level, right associativity).

(** [md.parse(src, {})]. *)
Definition md_parse (md : MarkdownIt) (src : jsstring)
  : Logged (list Token) :=
  fun log => (parse md src, log ++ [src]).

(** [md.render(src)], which markdown-it defines as
    [this.renderer.render(this.parse(src, env), this.options, env)]. *)
Definition md_render (md : MarkdownIt) (src : jsstring) : Logged jsstring :=
  tokens <- md_parse md src ;;
  ret (renderTokens md tokens).

(** Lines 87-99. *)
Definition parseMarkdown (md : MarkdownIt) (content : jsstring)
  : Logged MarkdownResult :=
  tokens <- md_parse md content ;;
  let toc := extractToc tokens in
  let title := extractTitle tokens in
  html <- md_render md content ;;
  ret {| html := html; toc := toc; title := title |}.

(** The result and the parser runs of a computation started with an
    empty record. *)
Definition result {A} (m : Logged A) : A := fst (m []).
Definition parserRuns {A} (m : Logged A) : list jsstring := snd (m []).

(** *** Table-of-contents markup, escaping and word count *)

(** The replacement of one code unit by [escapeHtml] (lines 127-136;
    [document.ts] holds the same function at lines 93-102). *)
Definition escapeUnit (c : codeunit) : jsstring :=
  if (c =? 38)%N then js "&amp;"
  else if (c =? 60)%N then js "&lt;"
  else if (c =? 62)%N then js "&gt;"
  else if (c =? 34)%N then js "&quot;"
  else if (c =? 39)%N then js "&#39;"
  else [c].

(** The global [replace] of [escapeHtml]: every ampersand, angle bracket,
    double quote and single quote gives way to its entity. *)
Definition escapeHtml (s : jsstring) : jsstring := flat_map escapeUnit s.

(** The callback of [toc.map] in [generateTocHtml]. *)
Definition tocItem (entry : TocEntry) : jsstring :=
  let indent := if (level entry =? 3)%N then js "toc-indent" else [] in
  js "<li class=" ++ dq ++ js "toc-item " ++ indent ++ dq ++ js "><a href="
    ++ dq ++ js "#" ++ id entry ++ dq ++ js ">" ++ escapeHtml (text entry)
    ++ js "</a></li>".

(** Lines 104-122. *)
Definition generateTocHtml (entries : list TocEntry) : jsstring :=
  if Nat.eqb (List.length entries) 0 then []
  else
    let items := join nl (List.map tocItem entries) in
    nl ++ js "    <nav class=" ++ dq ++ js "document-toc" ++ dq
      ++ js " aria-label=" ++ dq ++ js "Table of Contents" ++ dq ++ js ">"
      ++ nl ++ js "      <h2 class=" ++ dq ++ js "toc-title" ++ dq
      ++ js ">Contents</h2>"
      ++ nl ++ js "      <ul class=" ++ dq ++ js "toc-list" ++ dq ++ js ">"
      ++ nl ++ js "        " ++ items
      ++ nl ++ js "      </ul>"
      ++ nl ++ js "    </nav>"
      ++ nl ++ js "  ".

(** The class [[#*`\[\]()]] removed by [countWords]. *)
Definition isMarkupUnit (c : codeunit) : bool :=
  ((c =? 35) || (c =? 42) || (c =? 96) || (c =? 91) || (c =? 93)
   || (c =? 40) || (c =? 41))%N.

(** Lines 141-146. *)
Definition countWords (s : jsstring) : nat :=
  List.length
    (filter (fun word => Nat.ltb 0 (List.length word))
       (splitSpace [] false
          (filter (fun c => negb (isMarkupUnit c)) s))).

End Markdown.

(** ** [themes.ts] *)

Module Themes.

(** A theme, with the field this code reads: the colours, in the order
    [Object.entries] lists them. *)
Record Theme := {
  colors : option (list (jsstring * jsstring))
}.

(** What [themes.ts] reads from the file system, taken as it is. *)
Record ThemeStore := {
  getTheme : jsstring -> option Theme;
  getThemeStyles : jsstring -> jsstring;
  generateFontFaceRules : jsstring -> jsstring
}.

(** Lines 142-153. *)
Definition generateColorVariables (theme : Theme) : jsstring :=
  match colors theme with
  | None => []
  | Some entries =>
      let variables :=
        join nl
          (List.map
             (fun entry : jsstring * jsstring =>
                js "  --doc-" ++ fst entry ++ js ": " ++ snd entry ++ js ";")
             entries) in
      js ":root {" ++ nl ++ variables ++ nl ++ js "}"
  end.

(** Lines 158-160. *)
Definition getDefaultThemeId : jsstring := js "default".

(** Lines 165-168. *)
Definition themeExists (store : ThemeStore) (themeId : jsstring) : bool :=
  match getTheme store themeId with
  | Some _ => true
  | None => false
  end.

End Themes.

(** ** [document.ts] *)

Module Document.

Import Themes.

Record DocumentOptions := {
  title : jsstring;
  content : jsstring;
  toc : option jsstring;
  themeId : jsstring;
  showToc : bool
}.

(** The interpolation [showToc && toc ? toc : ''] of the template. *)
Definition tocSlot (showToc : bool) (toc : option jsstring) : jsstring :=
  if showToc && truthyOpt toc then orElse toc [] else [].

(** Lines 23-80. *)
Definition buildDocument (store : ThemeStore) (options : DocumentOptions)
  : jsstring :=
  let theme := getTheme store (themeId options) in
  let themeStyles := getThemeStyles store (themeId options) in
  let fontFaceRules := generateFontFaceRules store (themeId options) in
  let colorVariables :=
    match theme with
    | Some t => generateColorVariables t
    | None => []
    end in
  let escapeHtml := Markdown.escapeHtml in
  js "<!DOCTYPE html>" ++ nl ++ js "<html lang=" ++ dq ++ js "en" ++ dq
    ++ js ">" ++ nl ++ js "<head>" ++ nl ++ js "  <meta charset=" ++ dq
    ++ js "UTF-8" ++ dq ++ js ">" ++ nl ++ js "  <meta name=" ++ dq
    ++ js "viewport" ++ dq ++ js " content=" ++ dq
    ++ js "width=device-width, initial-scale=1.0" ++ dq ++ js ">" ++ nl
    ++ js "  <title>" ++ escapeHtml (title options) ++ js "</title>" ++ nl
    ++ js "  <style>" ++ nl ++ js "    /* Reset */" ++ nl
    ++ js "    *, *::before, *::after {" ++ nl
    ++ js "      box-sizing: border-box;" ++ nl ++ js "    }" ++ nl ++ nl
    ++ js "    html {" ++ nl ++ js "      -webkit-print-color-adjust: exact;"
    ++ nl ++ js "      print-color-adjust: exact;" ++ nl ++ js "    }" ++ nl
    ++ nl ++ js "    body {" ++ nl ++ js "      margin: 0;" ++ nl
    ++ js "      padding: 0;" ++ nl ++ js "    }" ++ nl ++ nl
    ++ js "    /* Font Face Rules */" ++ nl ++ js "    " ++ fontFaceRules
    ++ nl ++ nl ++ js "    /* Color Variables */" ++ nl ++ js "    "
    ++ colorVariables ++ nl ++ nl ++ js "    /* Theme Styles */" ++ nl
    ++ js "    " ++ themeStyles ++ nl ++ nl
    ++ js "    /* Highlight.js base styles */" ++ nl ++ js "    .hljs {"
    ++ nl ++ js "      display: block;" ++ nl ++ js "      overflow-x: auto;"
    ++ nl ++ js "      padding: 1em;" ++ nl
    ++ js "      background: var(--doc-code-bg, #f5f5f5);" ++ nl
    ++ js "    }" ++ nl ++ js "  </style>" ++ nl ++ js "</head>" ++ nl
    ++ js "<body>" ++ nl ++ js "  <article class=" ++ dq ++ js "document"
    ++ dq ++ js ">" ++ nl ++ js "    "
    ++ tocSlot (showToc options) (toc options) ++ nl ++ js "    "
    ++ content options ++ nl ++ js "  </article>" ++ nl ++ js "</body>" ++ nl
    ++ js "</html>".

End Document.

(** ** The conversion routes *)

Module Convert.

Import Themes.

Record ConversionOptions := {
  themeId : jsstring;
  generateToc : bool;
  pageNumbers : bool;
  title : option jsstring
}.

(** The body of a request, as [json(req)] returns it. *)
Record ConversionRequest := {
  content : option jsstring;
  options : option ConversionOptions
}.

Inductive Reply (A : Type) :=
| BadRequest (message : jsstring)
| Ok (body : A).

Arguments BadRequest {A} message.
Arguments Ok {A} body.

Record Preview := {
  html : jsstring;
  previewTitle : jsstring
}.

(** The options handed to [buildDocument] by both routes (lines 32-55 and
    102-125 of the conversion routes); [pageNumbers] is the default of the
    route. *)
Definition documentOptions (store : ThemeStore) (md : Markdown.MarkdownIt)
  (pageNumbers : bool) (body : ConversionRequest) (content : jsstring)
  : Markdown.Logged Document.DocumentOptions :=
  let options :=
    match options body with
    | Some o => o
    | None =>
        {| themeId := getDefaultThemeId; generateToc := true;
           pageNumbers := pageNumbers; title := None |}
    end in
  let themeId :=
    if truthy (themeId options) && negb (themeExists store (themeId options))
    then getDefaultThemeId
    else themeId options in
  Markdown.bind (Markdown.parseMarkdown md content)
    (fun parsed =>
       let title :=
         orElse (title options)
           (orElse (Markdown.title parsed) (js "Document")) in
       let tocHtml :=
         if generateToc options
         then Markdown.generateTocHtml (Markdown.toc parsed)
         else [] in
       Markdown.ret
         {| Document.title := title;
            Document.content := Markdown.html parsed;
            Document.toc := Some tocHtml;
            Document.themeId := themeId;
            Document.showToc := generateToc options |}).

(** [POST /api/convert/preview] (lines 93-133), for a body that was
    read. *)
Definition handlePreview (store : ThemeStore) (md : Markdown.MarkdownIt)
  (body : ConversionRequest) : Markdown.Logged (Reply Preview) :=
  if truthyOpt (content body) then
    Markdown.bind
      (documentOptions store md false body (orElse (content body) []))
      (fun documentOptions =>
         Markdown.ret
           (Ok {| html := Document.buildDocument store documentOptions;
                  previewTitle := Document.title documentOptions |}))
  else Markdown.ret (BadRequest (js "Content is required")).

End Convert.

(** ** [pdf.ts] *)

Module Pdf.

(** Drops the longest prefix of white space, the [\s*] of the pattern. *)
Definition skipSpace (s : jsstring) : jsstring := dropWhile isSpace s.

(** [stripPrefix literal s]: what follows [literal] at the head of [s]. *)
Fixpoint stripPrefix (literal s : jsstring) : option jsstring :=
  match literal, s with
  | [], _ => Some s
  | c :: literal', d :: s' =>
      if (c =? d)%N then stripPrefix literal' s' else None
  | _ :: _, [] => None
  end.

(** A match of [/\/Type\s*\/Page[^s]/] at the head of [s]: what follows
    the match. *)
Definition matchPage (s : jsstring) : option jsstring :=
  match stripPrefix (js "/Type") s with
  | Some afterType =>
      match stripPrefix (js "/Page") (skipSpace afterType) with
      | Some (c :: rest) => if (c =? 115)%N then None else Some rest
      | _ => None
      end
  | None => None
  end.

(** The number of matches [content.match(/.../g)] finds: the search
    resumes where a match ended.  [skip] counts the code units of the
    last match still to pass. *)
Fixpoint countPages (skip : nat) (s : jsstring) : nat :=
  match s with
  | [] => 0
  | _ :: r =>
      match skip with
      | S k => countPages k r
      | O =>
          match matchPage s with
          | Some rest =>
              S (countPages (List.length s - List.length rest - 1) r)
          | None => countPages 0 r
          end
      end
  end.

(** Lines 86-91, on the buffer read as a binary string. *)
Definition estimatePageCount (content : jsstring) : nat :=
  let matches := countPages 0 content in
  if Nat.eqb matches 0 then 1 else matches.

End Pdf.

(** ** [download.js] *)

Module Download.

(** The class [[a-z0-9\s-]] under the [i] flag. *)
Definition isFilenameUnit (c : codeunit) : bool :=
  isLower c || isUpper c || isDigit c || isSpace c || (c =? hyphen)%N.

(** Lines 70-76; [None] is a missing name. *)
Definition sanitizeFilename (name : option jsstring) : jsstring :=
  sliceTo 50
    (toLowerCase
       (collapseSpace
          (filter isFilenameUnit (orElse name (js "document"))))).

End Download.

(** * The vocabulary of the properties

    What the statements below are written in: the shapes the specification
    speaks of, and the inputs at which the statements are exercised. *)

Import Notion.

(** ** Slugs *)

(** The code units a slug is made of: [a-z0-9_-]. *)
Definition isSlugUnit (c : codeunit) : bool :=
  (isWord c || (c =? hyphen)%N) && negb (isUpper c).

(** ** Rich-text composition *)

(** [mark ++ s ++ mark], applied when [b] holds. *)
Definition wrapIf (b : bool) (mark s : jsstring) : jsstring :=
  if b then mark ++ s ++ mark else s.

(** The link around a formatted span, applied when [href] is truthy. *)
Definition linkIf (h : option jsstring) (s : jsstring) : jsstring :=
  match h with
  | Some target =>
      if truthy target then js "[" ++ s ++ js "](" ++ target ++ js ")" else s
  | None => s
  end.

(** The nesting as the specification words it: code innermost, then
    strikethrough, then italic, then bold outermost, and the link around
    all of them. *)
Definition composeAsSpecified (text : RichText) : jsstring :=
  linkIf (href text)
    (wrapIf (flag bold text) (js "**")
       (wrapIf (flag italic text) (js "*")
          (wrapIf (flag strikethrough text) (js "~~")
             (wrapIf (flag code text) (js "`")
                (orElse (plain_text text) []))))).

(** The nesting of the source: bold innermost, then italic, then
    strikethrough, then code outermost, and the link around all of them. *)
Definition composeAsWritten (text : RichText) : jsstring :=
  linkIf (href text)
    (wrapIf (flag code text) (js "`")
       (wrapIf (flag strikethrough text) (js "~~")
          (wrapIf (flag italic text) (js "*")
             (wrapIf (flag bold text) (js "**")
                (orElse (plain_text text) []))))).

Definition plain : Annotations :=
  {| bold := false; italic := false; strikethrough := false; code := false |}.

Definition span (t : string) (a : Annotations) (link : option string)
  : RichText :=
  {| plain_text := Some (js t); annotations := Some a;
     href := option_map js link |}.

(** ** Blocks and tables *)

Definition paragraph (t : string) : Block :=
  mkBlock (js "p") (js "paragraph")
    {| rich_text := Some [span t plain None]; checked := false;
       language := None; icon_emoji := None; data_type := None;
       external_url := None; file_url := None; caption := None; url := None;
       cells := None |}
    false None.

Definition unsupported : Block :=
  mkBlock (js "u") (js "unsupported") emptyData false None.

(** The pipe-delimited line of one row. *)
Definition rowLine (row : Block) : jsstring :=
  pipeLine (map (fun cell => richTextToMarkdown (Some cell)) (rowCells row)).

(** The separator line of a table of [columns] columns. *)
Definition separatorLine (columns : nat) : jsstring :=
  pipeLine (List.repeat (js "---") columns).

Definition tableRow (texts : list string) : Block :=
  mkBlock (js "r") (js "table_row")
    {| rich_text := None; checked := false; language := None;
       icon_emoji := None; data_type := None; external_url := None;
       file_url := None; caption := None; url := None;
       cells := Some (map (fun t => [span t plain None]) texts) |}
    false None.

(** ** Page identifiers *)

(** [hasRun p n s]: [s] holds [n] consecutive code units of the class
    [p]. *)
Fixpoint hasRun (p : codeunit -> bool) (n : nat) (s : jsstring) : bool :=
  match takeRun p n s with
  | Some _ => true
  | None =>
      match s with
      | [] => false
      | _ :: r => hasRun p n r
      end
  end.

(** [runBefore p n s]: somewhere in [s], [n] consecutive code units of
    the class [p] stand directly before a [?] or before the end of [s]. *)
Definition runBefore (p : codeunit -> bool) (n : nat) (s : jsstring)
  : Prop :=
  exists prefix m suffix,
    s = prefix ++ m ++ suffix
    /\ List.length m = n
    /\ forallb p m = true
    /\ atBoundary suffix = true.

(** [n] hexadecimal digits, in either case. *)
Definition hexRun (n : nat) (g : jsstring) : Prop :=
  testExact isHex n g = true.

(** The canonical dashed form, groups of 8, 4, 4, 4 and 12 digits. *)
Definition dashedForm (g1 g2 g3 g4 g5 : jsstring) : jsstring :=
  g1 ++ hyphen :: g2 ++ hyphen :: g3 ++ hyphen :: g4 ++ hyphen :: g5.

(** An input holds a well-formed id, in the words of the specification,
    when 32 hexadecimal digits or the 36-character dashed form occur in
    it. *)
Fixpoint startsWithGroups (groups : list nat) (s : jsstring) : bool :=
  match groups with
  | [] => true
  | [g] => match takeRun isHex g s with Some _ => true | None => false end
  | g :: more =>
      match takeRun isHex g s with
      | Some (_, c :: r) => (c =? hyphen)%N && startsWithGroups more r
      | _ => false
      end
  end.

Fixpoint holdsWellFormedId (s : jsstring) : bool :=
  startsWithGroups [32] s
  || startsWithGroups [8; 4; 4; 4; 12] s
  || match s with
     | [] => false
     | _ :: r => holdsWellFormedId r
     end.

(** ** Paginated retrieval *)

(** [servesPages list_children blockId cursor pages]: asked for the
    children of [blockId] from [cursor] on, the provider answers with
    [pages], one answer each.  Every answer but the last announces more
    and hands out a non-empty cursor, which leads to the next page.  The
    last answer is one the loop does not go on from: it announces no
    more, whatever cursor it carries, or it announces more and hands out
    no cursor, or an empty one. *)
Inductive servesPages (list_children : Provider) (blockId : jsstring)
  : option jsstring -> list (list Block) -> Prop :=
| serves_last (cursor : option jsstring) (response : Response) :
    list_children blockId cursor = Some response ->
    has_more response = false ->
    servesPages list_children blockId cursor [results response]
| serves_no_cursor (cursor : option jsstring) (response : Response) :
    list_children blockId cursor = Some response ->
    has_more response = true ->
    truthyOpt (next_cursor response) = false ->
    servesPages list_children blockId cursor [results response]
| serves_more (cursor : option jsstring) (response : Response)
    (next : jsstring) (pages : list (list Block)) :
    list_children blockId cursor = Some response ->
    has_more response = true ->
    next_cursor response = Some next ->
    truthy next = true ->
    servesPages list_children blockId (Some next) pages ->
    servesPages list_children blockId cursor (results response :: pages).

(** [servesChildren list_children blockId kids]: the provider holds,
    below [blockId], the forest [kids], in pages of any size at every
    node.  [kids] are the blocks with their [children] filled in. *)
Inductive servesChildren (list_children : Provider)
  : jsstring -> list Block -> Prop :=
| serves_children (blockId : jsstring) (pages : list (list Block))
    (kids : list Block) :
    servesPages list_children blockId None pages ->
    expandsAll list_children (List.concat pages) kids ->
    servesChildren list_children blockId kids
with expandsAll (list_children : Provider)
  : list Block -> list Block -> Prop :=
| expands_nil : expandsAll list_children [] []
| expands_cons (block block' : Block) (rest rest' : list Block) :
    expands list_children block block' ->
    expandsAll list_children rest rest' ->
    expandsAll list_children (block :: rest) (block' :: rest')
with expands (list_children : Provider) : Block -> Block -> Prop :=
| expands_leaf (block : Block) :
    has_children block = false ->
    expands list_children block block
| expands_node (block : Block) (kids : list Block) :
    has_children block = true ->
    servesChildren list_children (id block) kids ->
    expands list_children block (setChildren block kids).

Scheme servesChildren_mut := Minimality for servesChildren Sort Prop
  with expandsAll_mut := Minimality for expandsAll Sort Prop
  with expands_mut := Minimality for expands Sort Prop.

Combined Scheme serves_mutind
  from servesChildren_mut, expandsAll_mut, expands_mut.

(** One step of the loop over the blocks, with [expand] the recursive
    call. *)
Definition fillOne (expand : jsstring -> Outcome (list Block))
  (block : Block) : Outcome Block :=
  if has_children block
  then bind (expand (id block)) (fun cs => Done (setChildren block cs))
  else Done block.

(** *** A provider with 250 children *)

Definition decimal (i : nat) : string :=
  NilEmpty.string_of_uint (Nat.to_uint i).

Definition numbered (i : nat) : Block :=
  mkBlock (js (decimal i)) (js "paragraph")
    {| rich_text := Some [span (decimal i) plain None]; checked := false;
       language := None; icon_emoji := None; data_type := None;
       external_url := None; file_url := None; caption := None; url := None;
       cells := None |}
    false None.

Definition children250 : list Block := map numbered (seq 0 250).

Definition cursorAt (i : nat) : jsstring := js "page-" ++ js (decimal i).

(** A provider that holds [pages] below [root] and hands out the cursor
    [page-i] for the page of index [i]. *)
Definition pagedProvider (root : jsstring) (pages : list (list Block))
  : Provider :=
  fun blockId cursor =>
    if eqb blockId root then
      let index :=
        match cursor with
        | None => Some 0
        | Some c =>
            find (fun i => eqb c (cursorAt i)) (seq 1 (List.length pages))
        end in
      match index with
      | Some i =>
          let more := Nat.ltb (S i) (List.length pages) in
          Some {| results := nth i pages [];
                  has_more := more;
                  next_cursor := if more then Some (cursorAt (S i)) else None |}
      | None => None
      end
    else None.

Definition threePages : list (list Block) :=
  [ firstn 100 children250;
    firstn 100 (skipn 100 children250);
    skipn 200 children250 ].

Definition root : jsstring := js "page".

(** The provider [list_children] with every answer announcing more: its
    last page comes with [has_more] set and without cursor. *)
Definition openEnded (list_children : Provider) : Provider :=
  fun blockId cursor =>
    match list_children blockId cursor with
    | Some response =>
        Some {| results := results response;
                has_more := true;
                next_cursor := next_cursor response |}
    | None => None
    end.

(** The provider [list_children] with a cursor on every answer, also on
    those that announce no more. *)
Definition lingering (list_children : Provider) (stale : jsstring)
  : Provider :=
  fun blockId cursor =>
    match list_children blockId cursor with
    | Some response =>
        Some {| results := results response;
                has_more := has_more response;
                next_cursor :=
                  match next_cursor response with
                  | Some next => Some next
                  | None => Some stale
                  end |}
    | None => None
    end.

(** ** Token streams *)

Section TokenStreams.

Import Markdown.

(** The tokens of one heading as markdown-it lays them out: the opening
    tag [hN], the inline content, the closing tag. *)
Definition headingTag (level : N) : jsstring := js "h" ++ [(48 + level)%N].

Definition headingOpen (level : N) : Token :=
  {| type := js "heading_open"; tag := headingTag level; content := [] |}.

Definition inlineToken (t : jsstring) : Token :=
  {| type := js "inline"; tag := []; content := t |}.

Definition headingClose (level : N) : Token :=
  {| type := js "heading_close"; tag := headingTag level; content := [] |}.

(** A parsed document, cut at its headings: a heading with its level and
    inline content, or a stretch of tokens that opens no heading. *)
Inductive Segment :=
| Heading (level : N) (text : jsstring)
| Other (tokens : list Token).

Definition segmentTokens (seg : Segment) : list Token :=
  match seg with
  | Heading level t => [headingOpen level; inlineToken t; headingClose level]
  | Other tokens => tokens
  end.

Definition tokensOf (doc : list Segment) : list Token :=
  flat_map segmentTokens doc.

Definition opensHeading (token : Token) : bool :=
  eqb (type token) (js "heading_open").

(** Heading levels run from 1 to 6, and the other stretches open no
    heading. *)
Definition wellFormed (seg : Segment) : bool :=
  match seg with
  | Heading level _ => ((1 <=? level) && (level <=? 6))%N
  | Other tokens => forallb (fun token => negb (opensHeading token)) tokens
  end.

(** The entries the table of contents is to hold: the headings of level 2
    and 3, in document order. *)
Definition tocOf (doc : list Segment) : list TocEntry :=
  flat_map
    (fun seg =>
       match seg with
       | Heading level t =>
           if ((2 <=? level) && (level <=? 3))%N
           then [{| id := slugify t; text := t; level := level |}]
           else []
       | Other _ => []
       end)
    doc.

(** The title: the content of the first heading of level 1. *)
Fixpoint titleOf (doc : list Segment) : option jsstring :=
  match doc with
  | [] => None
  | Heading level t :: rest => if (level =? 1)%N then Some t else titleOf rest
  | Other _ :: rest => titleOf rest
  end.

(** *** A small engine for the examples

    A stand-in for the configured markdown-it instance on documents made of
    ATX headings and one-line paragraphs separated by blank lines.  It is
    the concrete engine at which the statements below are exercised. *)

Fixpoint splitLines (current text : jsstring) : list jsstring :=
  match text with
  | [] => [rev current]
  | c :: r =>
      if (c =? 10)%N then rev current :: splitLines [] r
      else splitLines (c :: current) r
  end.

Fixpoint countHashes (line : jsstring) : N * jsstring :=
  match line with
  | c :: r =>
      if (c =? 35)%N
      then let (n, rest) := countHashes r in ((n + 1)%N, rest)
      else (0%N, line)
  | [] => (0%N, [])
  end.

Definition paragraphTokens (line : jsstring) : list Token :=
  [ {| type := js "paragraph_open"; tag := js "p"; content := [] |};
    inlineToken (trim line);
    {| type := js "paragraph_close"; tag := js "p"; content := [] |} ].

Definition lineTokens (line : jsstring) : list Token :=
  if truthy (trim line) then
    let (n, rest) := countHashes line in
    match rest with
    | c :: _ =>
        if ((1 <=? n) && (n <=? 6) && (c =? 32))%N
        then segmentTokens (Heading n (trim rest))
        else paragraphTokens line
    | [] => paragraphTokens line
    end
  else [].

Definition renderToken (token : Token) : jsstring :=
  if eqb (type token) (js "inline") then content token
  else if eqb (type token) (js "heading_open")
          || eqb (type token) (js "paragraph_open")
       then js "<" ++ tag token ++ js ">"
       else js "</" ++ tag token ++ js ">" ++ nl.

Definition atx : MarkdownIt :=
  {| parse := fun src => flat_map lineTokens (splitLines [] src);
     renderTokens := fun tokens => List.concat (map renderToken tokens) |}.

(** The document of the specification's example: a title, two headings
    and a paragraph. *)
Definition exampleInput : jsstring :=
  js "# Title" ++ nl ++ nl ++ js "## One" ++ nl ++ nl ++ js "content" ++ nl
    ++ nl ++ js "### Two" ++ nl.

Definition exampleDoc : list Segment :=
  [ Heading 1 (js "Title"); Heading 2 (js "One");
    Other (paragraphTokens (js "content")); Heading 3 (js "Two") ].

(** *** One parse *)

(** The computation as the specification words it: the parser runs once,
    and the very token stream it returned is rendered. *)
Definition parseMarkdownOnce (md : MarkdownIt) (content : jsstring)
  : Logged MarkdownResult :=
  bind (md_parse md content)
    (fun tokens =>
       ret {| html := renderTokens md tokens;
              toc := extractToc tokens;
              title := extractTitle tokens |}).

End TokenStreams.

(** ** Escaped text *)

(** The five code units [escapeHtml] replaces. *)
Definition isSpecial (c : codeunit) : bool :=
  ((c =? 38) || (c =? 60) || (c =? 62) || (c =? 34) || (c =? 39))%N.

(** Text free of the five. *)
Definition isClean (s : jsstring) : bool :=
  forallb (fun c => negb (isSpecial c)) s.

(** The five entities. *)
Definition entities : list jsstring :=
  [js "&amp;"; js "&lt;"; js "&gt;"; js "&quot;"; js "&#39;"].

Fixpoint startsWith (prefix s : jsstring) : bool :=
  match prefix, s with
  | [], _ => true
  | c :: prefix', d :: s' => (c =? d)%N && startsWith prefix' s'
  | _ :: _, [] => false
  end.

Definition startsWithEntity (s : jsstring) : bool :=
  existsb (fun entity => startsWith entity s) entities.

(** The number of occurrences of the code unit [c] in [s]. *)
Definition countUnit (c : codeunit) (s : jsstring) : nat :=
  List.length (filter (N.eqb c) s).

(** ** Words *)

(** The number of words from a point on; [inWord] tells that a word is
    being read. *)
Fixpoint wordsFrom (inWord : bool) (s : jsstring) : nat :=
  match s with
  | [] => if inWord then 1 else 0
  | c :: r =>
      if isSpace c
      then (if inWord then 1 else 0) + wordsFrom false r
      else wordsFrom true r
  end.

(** ** Conversion requests *)

(** Whether a request asks for a table of contents: the option of the
    body, or the default of the routes when the body has no options. *)
Definition wantsToc (body : Convert.ConversionRequest) : bool :=
  match Convert.options body with
  | Some o => Convert.generateToc o
  | None => true
  end.

(** The title a request asks for, if any. *)
Definition requestedTitle (body : Convert.ConversionRequest)
  : option jsstring :=
  match Convert.options body with
  | Some o => Convert.title o
  | None => None
  end.

(** The theme a request asks for: the theme of its options, or the default
    theme when the body has no options. *)
Definition requestedTheme (body : Convert.ConversionRequest) : jsstring :=
  match Convert.options body with
  | Some o => Convert.themeId o
  | None => Themes.getDefaultThemeId
  end.

(** The theme the document is built with: the one asked for, unless it is
    named and unknown to the store. *)
Definition documentTheme (store : Themes.ThemeStore)
  (body : Convert.ConversionRequest) : jsstring :=
  if truthy (requestedTheme body)
     && negb (Themes.themeExists store (requestedTheme body))
  then Themes.getDefaultThemeId
  else requestedTheme body.

(** The title of the document of a request with content [content]: the
    title asked for, or else the first heading of level 1, or else
    [Document]. *)
Definition documentTitle (md : Markdown.MarkdownIt)
  (body : Convert.ConversionRequest) (content : jsstring) : jsstring :=
  orElse (requestedTitle body)
    (orElse (Markdown.extractTitle (Markdown.parse md content))
       (js "Document")).

(** A theme store without themes. *)
Definition noThemes : Themes.ThemeStore :=
  {| Themes.getTheme := fun _ => None;
     Themes.getThemeStyles := fun _ => [];
     Themes.generateFontFaceRules := fun _ => [] |}.

(** ** Plain spans and expanded blocks *)

(** A span without formatting: no annotation set and no link. *)
Definition isUnformatted (text : RichText) : bool :=
  negb (flag bold text) && negb (flag italic text)
  && negb (flag strikethrough text) && negb (flag code text)
  && negb (truthyOpt (href text)).

(** [text.plain_text || '']. *)
Definition spanText (text : RichText) : jsstring :=
  orElse (plain_text text) [].

(** A block is expanded when, if it announces children, they are there
    and expanded in turn. *)
Fixpoint expanded (block : Block) : bool :=
  if has_children block
  then match children block with
       | Some cs => forallb expanded cs
       | None => false
       end
  else true.

(** A block without its [children]. *)
Definition bare (block : Block)
  : jsstring * jsstring * BlockData * bool :=
  (id block, type block, data block, has_children block).

(** A provider with a list item that has one child, and a paragraph. *)
Definition listItem : Block :=
  mkBlock (js "item") (js "bulleted_list_item")
    {| rich_text := Some [span "a" plain None]; checked := false;
       language := None; icon_emoji := None; data_type := None;
       external_url := None; file_url := None; caption := None;
       url := None; cells := None |}
    true None.

(** [filledFrom expand b k]: [k] is what the loop over the blocks makes
    of the block [b] of a page, with [expand] the recursive call.  A block
    that announces no children is left as it is; one that announces
    children is the same block with, as its [children], the list that
    [expand] returns for its own id. *)
Definition filledFrom (expand : jsstring -> Outcome (list Block))
  (b k : Block) : Prop :=
  if has_children b
  then bare k = bare b
       /\ exists cs, expand (id b) = Done cs /\ children k = Some cs
  else k = b.

Definition nestedProvider : Provider :=
  fun blockId cursor =>
    if eqb blockId (js "page")
    then Some {| results := [listItem; paragraph "b"]; has_more := false;
                 next_cursor := None |}
    else if eqb blockId (js "item")
    then Some {| results := [paragraph "c"]; has_more := false;
                 next_cursor := None |}
    else None.



(** ** File names *)

(** The code units of a sanitised file name: [a-z0-9-]. *)
Definition isNameUnit (c : codeunit) : bool :=
  isLower c || isDigit c || (c =? hyphen)%N.

(** ** Kinds of blocks *)

(** The kinds whose fragment can be empty. *)
Definition mayVanish (k : Kind) : bool :=
  match k with
  | Paragraph | Image | Bookmark | LinkPreview | Table | TableRow
  | ColumnList | Column | Unknown => true
  | _ => false
  end.

(** * The properties *)

(** ** Slugs *)

(** Turns a goal or hypothesis about character classes into linear
    arithmetic. *)
Ltac classes :=
  unfold isSlugUnit, isHexOrHyphen, isWord, isHex, isUpper, isLower,
    isDigit, isSpace, inRange, hyphen, question in *;
  repeat progress
    (rewrite ?Bool.andb_true_iff, ?Bool.orb_true_iff, ?Bool.negb_true_iff,
       ?Bool.andb_false_iff, ?Bool.orb_false_iff, ?Bool.negb_false_iff,
       ?N.leb_le, ?N.leb_gt, ?N.eqb_eq, ?N.eqb_neq in *).

Section SlugFacts.

Import Markdown.

Lemma slugUnit_not_space c : isSlugUnit c = true -> isSpace c = false.
Proof.
  intros H. apply Bool.not_true_iff_false. intros Hs. revert H Hs.
  classes. lia.
Qed.

Lemma slugUnit_keeps c :
  isSlugUnit c = true -> (isWord c || (c =? hyphen)%N) = true.
Proof. unfold isSlugUnit. rewrite Bool.andb_true_iff. tauto. Qed.

Lemma lowerUnit_slugUnit c : isSlugUnit c = true -> lowerUnit c = [c].
Proof.
  intros H. unfold lowerUnit.
  assert (Hu : isUpper c = false).
  { unfold isSlugUnit in H. rewrite Bool.andb_true_iff, Bool.negb_true_iff in H.
    tauto. }
  rewrite Hu.
  assert (H1 : (c =? 304)%N = false) by (revert H; classes; lia).
  assert (H2 : (c =? 8490)%N = false) by (revert H; classes; lia).
  now rewrite H1, H2.
Qed.

Lemma lowerUnit_not_upper c :
  Forall (fun d => isUpper d = false) (lowerUnit c).
Proof.
  unfold lowerUnit.
  destruct (isUpper c) eqn:Hu.
  - constructor; [|constructor]. revert Hu. classes. lia.
  - destruct (c =? 304)%N; [repeat constructor|].
    destruct (c =? 8490)%N; repeat constructor. exact Hu.
Qed.

Lemma toLowerCase_not_upper s :
  Forall (fun d => isUpper d = false) (toLowerCase s).
Proof.
  unfold toLowerCase. induction s as [|c s IH]; simpl.
  - constructor.
  - apply Forall_app. split; [apply lowerUnit_not_upper | exact IH].
Qed.

Section Preservation.

Variable P : codeunit -> Prop.

Lemma dropWhile_Forall p s : Forall P s -> Forall P (dropWhile p s).
Proof.
  induction 1 as [|c s Hc Hs IH]; simpl; [constructor|].
  destruct (p c); [exact IH | now constructor].
Qed.

Lemma trim_Forall s : Forall P s -> Forall P (trim s).
Proof.
  intros H. unfold trim.
  apply Forall_rev, dropWhile_Forall, Forall_rev, dropWhile_Forall, H.
Qed.

Lemma collapseSpaceFrom_Forall b s :
  P hyphen -> Forall P s -> Forall P (collapseSpaceFrom b s).
Proof.
  intros Hh H. revert b.
  induction H as [|c s Hc Hs IH]; intros b; simpl; [constructor|].
  destruct (isSpace c); [destruct b|]; auto.
Qed.

Lemma stripNonWord_Forall s : Forall P s -> Forall P (stripNonWord s).
Proof.
  unfold stripNonWord.
  induction 1 as [|c s Hc Hs IH]; simpl; [constructor|].
  destruct (isWord c || (c =? hyphen)%N); auto.
Qed.

End Preservation.

Lemma stripNonWord_kept s :
  Forall (fun c => (isWord c || (c =? hyphen)%N) = true) (stripNonWord s).
Proof.
  unfold stripNonWord. apply Forall_forall. intros c Hc.
  apply filter_In in Hc. tauto.
Qed.

(** Every code unit of a slug is one of [a-z0-9_-]. *)
Lemma slugify_units s : Forall (fun c => isSlugUnit c = true) (slugify s).
Proof.
  assert (Hup : Forall (fun d => isUpper d = false) (slugify s)).
  { unfold slugify.
    apply stripNonWord_Forall, collapseSpaceFrom_Forall; [reflexivity|].
    apply trim_Forall, toLowerCase_not_upper. }
  pose proof (stripNonWord_kept (collapseSpace (trim (toLowerCase s)))) as Hk.
  fold (slugify s) in Hk.
  rewrite Forall_forall in *. intros c Hc.
  unfold isSlugUnit. rewrite (Hk c Hc), (Hup c Hc). reflexivity.
Qed.

Section OnSlugs.

Let slug (t : jsstring) : Prop := Forall (fun c => isSlugUnit c = true) t.

Lemma toLowerCase_slug t : slug t -> toLowerCase t = t.
Proof.
  unfold toLowerCase. induction 1 as [|c s Hc Hs IH]; simpl; [reflexivity|].
  rewrite (lowerUnit_slugUnit _ Hc), IH. reflexivity.
Qed.

Lemma dropWhile_slug t : slug t -> dropWhile isSpace t = t.
Proof.
  destruct 1 as [|c s Hc Hs]; simpl; [reflexivity|].
  now rewrite (slugUnit_not_space _ Hc).
Qed.

Lemma collapseSpaceFrom_slug t b : slug t -> collapseSpaceFrom b t = t.
Proof.
  intros Ht. revert b.
  induction Ht as [|c s Hc Hs IH]; intros b; simpl; [reflexivity|].
  rewrite (slugUnit_not_space _ Hc), IH. reflexivity.
Qed.

Lemma stripNonWord_slug t : slug t -> stripNonWord t = t.
Proof.
  unfold stripNonWord. induction 1 as [|c s Hc Hs IH]; simpl; [reflexivity|].
  rewrite (slugUnit_keeps _ Hc), IH. reflexivity.
Qed.

Lemma trim_slug t : slug t -> trim t = t.
Proof.
  intros Ht. unfold trim.
  rewrite (dropWhile_slug _ Ht).
  rewrite (dropWhile_slug _ (Forall_rev Ht)).
  apply rev_involutive.
Qed.

End OnSlugs.

(** A slug is a fixed point of [slugify]. *)
Lemma slugify_slug t :
  Forall (fun c => isSlugUnit c = true) t -> slugify t = t.
Proof.
  intros Ht. unfold slugify, collapseSpace.
  rewrite (toLowerCase_slug _ Ht), (trim_slug _ Ht),
    (collapseSpaceFrom_slug _ _ Ht), (stripNonWord_slug _ Ht).
  reflexivity.
Qed.

(** C9.  [slugify] is idempotent: for every string [s],
    [slugify (slugify s) = slugify s], where [slugify] lower-cases, trims,
    turns each run of white space into one hyphen and removes every code
    unit that is neither a word character nor a hyphen. *)
Theorem slugify_idempotent (s : jsstring) :
  slugify (slugify s) = slugify s.
Proof. apply slugify_slug, slugify_units. Qed.

End SlugFacts.

(** ** Rich-text composition *)

Section RichTextFacts.

Lemma join_empty_concat (parts : list jsstring) :
  join [] parts = List.concat parts.
Proof.
  induction parts as [|p [|q rest] IH]; simpl in *.
  - reflexivity.
  - now rewrite app_nil_r.
  - now rewrite IH.
Qed.

Lemma formatSpan_composeAsWritten (text : RichText) :
  formatSpan text = composeAsWritten text.
Proof.
  unfold formatSpan, composeAsWritten, wrapIf, linkIf.
  destruct (flag bold text), (flag italic text), (flag strikethrough text),
    (flag code text), (href text) as [h|]; try destruct (truthy h);
    reflexivity.
Qed.

(** C1, as the code has it.  Every span is formatted on its own with bold
    innermost, then italic, then strikethrough, then code outermost, each
    applied when its annotation is set, and a non-empty [href] puts the link
    around all of them; the formatted spans are concatenated in order with
    no separator.  The run [{a, bold}], [{b, italic, link http://x}] gives
    [**a**[*b*](http://x)]. *)
Theorem richText_nesting_as_written :
  (forall text : RichText, formatSpan text = composeAsWritten text)
  /\ (forall spans : list RichText,
        richTextToMarkdown (Some spans) = List.concat (map formatSpan spans))
  /\ richTextToMarkdown
       (Some [ span "a" {| bold := true; italic := false;
                           strikethrough := false; code := false |} None;
               span "b" {| bold := false; italic := true;
                           strikethrough := false; code := false |}
                 (Some "http://x"%string) ])
     = js "**a**[*b*](http://x)".
Proof.
  split; [exact formatSpan_composeAsWritten|].
  split; [|reflexivity].
  intros spans. unfold richTextToMarkdown. apply join_empty_concat.
Qed.

(** C1, as the specification words it, fails on a span that is both bold
    and code: the source puts the code marks outside the bold ones. *)
Lemma richText_code_is_outermost :
  let text := span "a" {| bold := true; italic := false;
                          strikethrough := false; code := true |} None in
  formatSpan text = js "`**a**`"
  /\ composeAsSpecified text = js "**`a`**"
  /\ formatSpan text <> composeAsSpecified text.
Proof.
  cbv zeta. repeat split; try reflexivity.
  vm_compute. discriminate.
Qed.

End RichTextFacts.

(** ** Joining sibling fragments *)

Section JoinFacts.

Lemma pushLines_from (convert : Block -> jsstring) (blocks : list Block)
  (lines : list jsstring) :
  fold_left
    (fun lines block =>
       let md := convert block in
       if truthy md then lines ++ [md] else lines)
    blocks lines
  = lines ++ filter truthy (map convert blocks).
Proof.
  revert lines. induction blocks as [|b bs IH]; intros lines; simpl.
  - now rewrite app_nil_r.
  - rewrite IH. destruct (truthy (convert b)); [|reflexivity].
    now rewrite <- app_assoc.
Qed.

(** The array built by the loop holds the non-empty fragments, in order. *)
Lemma pushLines_filter (convert : Block -> jsstring) (blocks : list Block) :
  pushLines convert blocks = filter truthy (map convert blocks).
Proof. unfold pushLines. now rewrite pushLines_from. Qed.

Lemma join_cons (sep p : jsstring) (rest : list jsstring) :
  join sep (p :: rest)
  = match rest with [] => p | _ :: _ => p ++ sep ++ join sep rest end.
Proof. destruct rest; reflexivity. Qed.

Lemma truthy_app_l (p q : jsstring) : truthy p = true -> truthy (p ++ q) = true.
Proof. destruct p; [discriminate | reflexivity]. Qed.

Lemma join_truthy (sep : jsstring) (parts : list jsstring) :
  Forall (fun p => truthy p = true) parts ->
  truthy (join sep parts) = match parts with [] => false | _ :: _ => true end.
Proof.
  destruct 1 as [|p rest Hp Hrest]; [reflexivity|].
  rewrite join_cons. destruct rest; [exact Hp | now apply truthy_app_l].
Qed.

Lemma filter_truthy_Forall (parts : list jsstring) :
  Forall (fun p => truthy p = true) (filter truthy parts).
Proof. apply Forall_forall. intros p Hp. apply filter_In in Hp. tauto. Qed.

(** One step of the join: an empty fragment leaves no trace, a non-empty
    one is followed by exactly two line feeds when more text follows. *)
Lemma joinBlocks_cons (convert : Block -> jsstring) (b : Block)
  (bs : list Block) :
  joinBlocks convert (b :: bs)
  = if truthy (convert b)
    then if truthy (joinBlocks convert bs)
         then convert b ++ nl ++ nl ++ joinBlocks convert bs
         else convert b
    else joinBlocks convert bs.
Proof.
  unfold joinBlocks. rewrite !pushLines_filter. simpl.
  destruct (truthy (convert b)); [|reflexivity].
  rewrite join_cons, (join_truthy _ _ (filter_truthy_Forall _)).
  destruct (filter truthy (map convert bs)); reflexivity.
Qed.

Lemma joinBlocks_drop (convert : Block -> jsstring) (b : Block)
  (before after : list Block) :
  convert b = [] ->
  joinBlocks convert (before ++ b :: after)
  = joinBlocks convert (before ++ after).
Proof.
  intros Hb. unfold joinBlocks.
  rewrite !pushLines_filter, !map_app, !filter_app.
  simpl. now rewrite Hb.
Qed.

(** The default case of the switch: no text payload, no fragment. *)
Lemma blockToMarkdown_unknown_empty (b : Block) (depth : nat) :
  kindOf (type b) = Unknown -> rich_text (data b) = None ->
  blockToMarkdown b depth = [].
Proof.
  destruct b as [i t d h c]. simpl. intros Hk Ht. now rewrite Hk, Ht.
Qed.

(** C6.  The fragments of a list of siblings are joined with exactly two
    line feeds between consecutive non-empty fragments, and empty fragments
    are dropped; a block of unknown kind without text payload gives the
    empty fragment and adds nothing to the join. *)
Theorem blocksToMarkdown_joins_nonempty (blocks : list Block) (depth : nat) :
  blocksToMarkdown blocks depth
  = join [10%N; 10%N]
      (filter truthy (map (fun b => blockToMarkdown b depth) blocks))
  /\ (forall (b : Block) (bs : list Block),
        blocksToMarkdown (b :: bs) depth
        = if truthy (blockToMarkdown b depth)
          then if truthy (blocksToMarkdown bs depth)
               then blockToMarkdown b depth ++ [10%N; 10%N]
                      ++ blocksToMarkdown bs depth
               else blockToMarkdown b depth
          else blocksToMarkdown bs depth)
  /\ (forall (b : Block) (before after : list Block),
        kindOf (type b) = Unknown -> rich_text (data b) = None ->
        blockToMarkdown b depth = []
        /\ blocksToMarkdown (before ++ b :: after) depth
           = blocksToMarkdown (before ++ after) depth).
Proof.
  split; [|split].
  - unfold blocksToMarkdown, joinBlocks. now rewrite pushLines_filter.
  - intros b bs. unfold blocksToMarkdown. rewrite joinBlocks_cons.
    reflexivity.
  - intros b before after Hk Ht.
    pose proof (blockToMarkdown_unknown_empty b depth Hk Ht) as He.
    split; [exact He|].
    unfold blocksToMarkdown. now apply joinBlocks_drop.
Qed.

(** C6 at work: an unknown block between two paragraphs. *)
Lemma blocksToMarkdown_joins_nonempty_witness :
  kindOf (type unsupported) = Unknown
  /\ rich_text (data unsupported) = None
  /\ blocksToMarkdown [paragraph "a"; unsupported; paragraph "b"] 0
     = blocksToMarkdown [paragraph "a"; paragraph "b"] 0
  /\ blocksToMarkdown [paragraph "a"; paragraph "b"] 0
     = js "a" ++ [10%N; 10%N] ++ js "b".
Proof.
  split; [reflexivity|]. split; [reflexivity|]. split; [|reflexivity].
  exact (proj2 (proj2 (proj2 (blocksToMarkdown_joins_nonempty [] 0))
                  unsupported [paragraph "a"] [paragraph "b"]
                  eq_refl eq_refl)).
Defined.

End JoinFacts.

(** ** Tables *)

Section TableFacts.

Lemma map_const_repeat {A B : Type} (b : B) (l : list A) :
  map (fun _ => b) l = List.repeat b (List.length l).
Proof. induction l as [|a l IH]; simpl; [reflexivity | now rewrite IH]. Qed.

(** Past the first index the loop only emits row lines. *)
Lemma tableLines_later (i : nat) (rows : list Block) :
  tableLines (S i) rows = map rowLine rows.
Proof.
  revert i. induction rows as [|row rest IH]; intros i; simpl.
  - reflexivity.
  - now rewrite IH.
Qed.

Lemma tableLines_first (header : Block) (rest : list Block) :
  tableLines 0 (header :: rest)
  = rowLine header
      :: separatorLine (List.length (rowCells header))
      :: map rowLine rest.
Proof.
  simpl. rewrite tableLines_later, map_const_repeat. reflexivity.
Qed.

(** C7.  The first row of a table is rendered as a pipe-delimited header
    line, directly followed by a separator line with one [---] cell per
    column of that row, and every later row is rendered as a pipe-delimited
    line of the same shape, the lines joined by line feeds.  A header row of
    two columns and one data row give exactly three lines: header,
    [| --- | --- |], data.  A table without rows, and a table block whose
    children were never filled in, give the empty string. *)
Theorem tableToMarkdown_header_separator_rows :
  (forall (header : Block) (rest : list Block),
      tableToMarkdown (header :: rest)
      = join [10%N]
          (rowLine header
             :: separatorLine (List.length (rowCells header))
             :: map rowLine rest))
  /\ (forall row : Block,
        rowLine row
        = js "| "
            ++ join (js " | ")
                 (map (fun cell => richTextToMarkdown (Some cell))
                    (rowCells row))
            ++ js " |")
  /\ tableToMarkdown [tableRow ["A"; "B"]; tableRow ["1"; "2"]]%string
     = js "| A | B |" ++ [10%N] ++ js "| --- | --- |" ++ [10%N]
         ++ js "| 1 | 2 |"
  /\ tableToMarkdown [] = []
  /\ (forall (i : jsstring) (d : BlockData) (h : bool) (depth : nat),
        blockToMarkdown (mkBlock i (js "table") d h None) depth = []
        /\ blockToMarkdown (mkBlock i (js "table") d h (Some [])) depth = []
        /\ forall rows : list Block,
             blockToMarkdown (mkBlock i (js "table") d h (Some rows)) depth
             = tableToMarkdown rows).
Proof.
  split; [|split; [|split; [|split]]].
  - intros header rest. unfold tableToMarkdown.
    change (Nat.eqb (List.length (header :: rest)) 0) with false.
    cbv iota. rewrite tableLines_first. reflexivity.
  - reflexivity.
  - reflexivity.
  - reflexivity.
  - intros i d h depth. repeat split.
Qed.

End TableFacts.

(** ** Page identifiers *)

Section RunFacts.

Variable p : codeunit -> bool.

Lemma takeRun_Some (n : nat) (s m rest : jsstring) :
  takeRun p n s = Some (m, rest) ->
  s = m ++ rest /\ List.length m = n /\ forallb p m = true.
Proof.
  revert s m rest. induction n as [|n IH]; intros s m rest; simpl.
  - intros [= <- <-]. auto.
  - destruct s as [|c r]; [discriminate|].
    destruct (p c) eqn:Hc; [|discriminate].
    destruct (takeRun p n r) as [[m' rest']|] eqn:E; [|discriminate].
    intros [= <- <-]. destruct (IH _ _ _ E) as (-> & <- & Hm).
    simpl. rewrite Hc, Hm. auto.
Qed.

Lemma takeRun_app (m rest : jsstring) :
  forallb p m = true -> takeRun p (List.length m) (m ++ rest) = Some (m, rest).
Proof.
  induction m as [|c m IH]; simpl; [reflexivity|].
  rewrite Bool.andb_true_iff. intros [Hc Hm]. now rewrite Hc, (IH Hm).
Qed.

Lemma takeRun_blocked (n : nat) (x : jsstring) (c : codeunit) (y : jsstring) :
  List.length x < n -> p c = false -> takeRun p n (x ++ c :: y) = None.
Proof.
  revert x. induction n as [|n IH]; intros x Hlen Hc; [lia|].
  destruct x as [|d x]; simpl.
  - now rewrite Hc.
  - destruct (p d); [|reflexivity].
    rewrite IH; [reflexivity | simpl in Hlen; lia | exact Hc].
Qed.

Lemma takeRun_short (n : nat) (s : jsstring) :
  List.length s < n -> takeRun p n s = None.
Proof.
  revert s. induction n as [|n IH]; intros s Hlen; [lia|].
  destruct s as [|c r]; simpl; [reflexivity|].
  destruct (p c); [|reflexivity].
  rewrite IH; [reflexivity | simpl in Hlen; lia].
Qed.

(** A run that ends inside [a] is followed by a code unit of [a]. *)
Lemma takeRun_inside (n : nat) (a b m rest : jsstring) :
  n < List.length a ->
  takeRun p n (a ++ b) = Some (m, rest) ->
  exists c l, rest = c :: l /\ In c a.
Proof.
  revert a m rest. induction n as [|n IH]; intros a m rest Hlen; simpl.
  - destruct a as [|c a]; [simpl in Hlen; lia|].
    intros [= <- <-]. exists c, (a ++ b). simpl. auto.
  - destruct a as [|c a]; [simpl in Hlen; lia|]. simpl.
    destruct (p c); [|discriminate].
    destruct (takeRun p n (a ++ b)) as [[m' rest']|] eqn:E; [|discriminate].
    intros [= <- <-].
    destruct (IH a m' rest') as (d & l & -> & Hd);
      [simpl in Hlen; lia | exact E |].
    exists d, l. simpl. auto.
Qed.

Lemma matchHere_inside (n : nat) (a b : jsstring) :
  n < List.length a -> ~ In question a -> matchHere p n (a ++ b) = None.
Proof.
  intros Hlen Hq. unfold matchHere.
  destruct (takeRun p n (a ++ b)) as [[m rest]|] eqn:E; [|reflexivity].
  destruct (takeRun_inside n a b m rest Hlen E) as (c & l & -> & Hc). simpl.
  destruct (N.eqb_spec c question) as [->|]; [contradiction | reflexivity].
Qed.

(** The leftmost match: a run directly followed by [?] or by the end of
    the input is found when no [?] comes before it. *)
Lemma search_found (prefix m suffix : jsstring) :
  forallb p m = true -> atBoundary suffix = true ->
  ~ In question (prefix ++ m) ->
  search p (List.length m) (prefix ++ m ++ suffix) = Some m.
Proof.
  intros Hm Hs. induction prefix as [|c prefix IH]; intros Hq.
  - simpl app. destruct m as [|d m'] eqn:Em.
    + simpl. destruct suffix; simpl; unfold matchHere; simpl; simpl in Hs;
        now rewrite ?Hs.
    + rewrite <- Em in *.
      assert (H : matchHere p (List.length m) (m ++ suffix) = Some m).
      { unfold matchHere. now rewrite (takeRun_app m suffix Hm), Hs. }
      destruct m; [discriminate|]. simpl app in *.
      unfold search; fold search. now rewrite H.
  - assert (H : matchHere p (List.length m) ((c :: prefix) ++ m ++ suffix)
                = None).
    { rewrite app_assoc. apply matchHere_inside; [|exact Hq].
      rewrite length_app. simpl. lia. }
    simpl app in *. unfold search; fold search. rewrite H.
    apply IH. intros Hin. apply Hq. now right.
Qed.

Lemma search_no_run (n : nat) (s : jsstring) :
  hasRun p n s = false -> search p n s = None.
Proof.
  induction s as [|c r IH]; simpl; unfold matchHere.
  - destruct (takeRun p n []); [discriminate | reflexivity].
  - destruct (takeRun p n (c :: r)); [discriminate | exact IH].
Qed.

Lemma search_unfold (n : nat) (s : jsstring) :
  search p n s
  = match matchHere p n s with
    | Some m => Some m
    | None =>
        match s with
        | [] => None
        | _ :: r => search p n r
        end
    end.
Proof. destruct s; reflexivity. Qed.

Lemma matchHere_run (m suffix : jsstring) :
  forallb p m = true -> atBoundary suffix = true ->
  matchHere p (List.length m) (m ++ suffix) = Some m.
Proof.
  intros Hm Hs. unfold matchHere. now rewrite (takeRun_app m suffix Hm), Hs.
Qed.

(** The search finds a match whenever there is one. *)
Lemma search_complete (n : nat) (s : jsstring) :
  runBefore p n s -> exists m, search p n s = Some m.
Proof.
  intros (prefix & m & suffix & -> & <- & Hm & Hs).
  induction prefix as [|c prefix IH].
  - exists m. simpl app. rewrite search_unfold.
    now rewrite (matchHere_run m suffix Hm Hs).
  - simpl app. rewrite search_unfold.
    destruct (matchHere p (List.length m) (c :: prefix ++ m ++ suffix))
      as [m'|]; [now exists m' | exact IH].
Qed.

(** What the search finds is a match. *)
Lemma search_sound (n : nat) (s m : jsstring) :
  search p n s = Some m -> runBefore p n s.
Proof.
  assert (Hhere : forall t, matchHere p n t = Some m -> runBefore p n t).
  { intros t. unfold matchHere.
    destruct (takeRun p n t) as [[x rest]|] eqn:E; [|discriminate].
    destruct (atBoundary rest) eqn:Hrest; [|discriminate].
    intros [= ->].
    destruct (takeRun_Some n t m rest E) as (-> & Hlen & Hm).
    exists [], m, rest. auto. }
  induction s as [|c r IH]; rewrite search_unfold.
  - destruct (matchHere p n []) eqn:E; [|discriminate].
    intros [= ->]. exact (Hhere _ E).
  - destruct (matchHere p n (c :: r)) eqn:E.
    + intros [= ->]. exact (Hhere _ E).
    + intros Hr. destruct (IH Hr) as (prefix & x & suffix & -> & H).
      exists (c :: prefix), x, suffix. auto.
Qed.

Lemma search_None_iff (n : nat) (s : jsstring) :
  search p n s = None <-> ~ runBefore p n s.
Proof.
  split.
  - intros Hnone Hrun. destruct (search_complete n s Hrun) as [m Hm].
    congruence.
  - intros Hrun. destruct (search p n s) as [m|] eqn:E; [|reflexivity].
    elim Hrun. exact (search_sound n s m E).
Qed.

(** The search passes over a prefix in which no match starts. *)
Lemma search_skip (n : nat) (a b : jsstring) :
  (forall a1 a2, a = a1 ++ a2 -> a2 <> [] ->
                 matchHere p n (a2 ++ b) = None) ->
  search p n (a ++ b) = search p n b.
Proof.
  intros Ha. induction a as [|c a IH]; [reflexivity|].
  assert (H0 : matchHere p n (c :: a ++ b) = None).
  { apply (Ha [] (c :: a) eq_refl). discriminate. }
  simpl app. rewrite search_unfold, H0.
  apply IH. intros a1 a2 -> Hne. apply (Ha (c :: a1) a2 eq_refl Hne).
Qed.

(** A run that fits in [a] is a run of [a]. *)
Lemma takeRun_within (n : nat) (a b m rest : jsstring) :
  takeRun p n (a ++ b) = Some (m, rest) -> n <= List.length a ->
  takeRun p n a <> None.
Proof.
  intros E Hlen. destruct (takeRun_Some n _ m rest E) as (Heq & Hm & Fm).
  destruct (app_eq_app _ _ _ _ Heq) as [l [[Ha _]|[Hm' _]]].
  - subst a. rewrite <- Hm, (takeRun_app m l Fm). discriminate.
  - assert (Hl : l = []).
    { destruct l; [reflexivity|]. exfalso.
      rewrite Hm', length_app in Hm. simpl in Hm. lia. }
    subst l. rewrite app_nil_r in Hm'. subst m.
    rewrite <- (app_nil_r a) at 1. rewrite <- Hm, (takeRun_app a [] Fm).
    discriminate.
Qed.

(** A run that starts in [a], which is not empty, and ends in [x] is
    followed by a code unit of [x]. *)
Lemma takeRun_across (n : nat) (a x b m rest : jsstring) :
  takeRun p n (a ++ x ++ b) = Some (m, rest) ->
  a <> [] -> List.length a < n -> n <= List.length x ->
  exists c l, rest = c :: l /\ In c x.
Proof.
  intros E Ha Hlen Hx.
  destruct (takeRun_Some n _ m rest E) as (Heq & Hm & _).
  assert (La : 0 < List.length a) by (destruct a; [now elim Ha|simpl; lia]).
  destruct (app_eq_app _ _ _ _ Heq) as [l [[Ha' _]|[Hm' Hxb]]].
  - exfalso. rewrite Ha', length_app in Hlen. lia.
  - assert (Ll : List.length l < List.length x).
    { rewrite Hm', length_app in Hm. lia. }
    destruct (app_eq_app _ _ _ _ Hxb) as [l' [[Hx' Hrest]|[Hl' _]]].
    + destruct l' as [|c l'].
      * exfalso. rewrite Hx', app_nil_r in Ll. lia.
      * exists c, (l' ++ b). split; [exact Hrest|].
        rewrite Hx'. apply in_or_app. right. now left.
    + exfalso. rewrite Hl', length_app in Ll. lia.
Qed.

Lemma hasRun_suffix (n : nat) (a1 a2 : jsstring) :
  hasRun p n (a1 ++ a2) = false -> takeRun p n a2 = None.
Proof.
  induction a1 as [|c a1 IH]; simpl app; intros H.
  - destruct (takeRun p n a2) eqn:E; [|reflexivity].
    destruct a2; simpl in H; rewrite E in H; discriminate H.
  - apply IH. simpl in H.
    destruct (takeRun p n (c :: a1 ++ a2)); [discriminate H|exact H].
Qed.

(** No match starts in a prefix that holds no [?], or no run, when what
    follows it is long enough and holds no [?] either. *)
Lemma matchHere_before (n : nat) (prefix x suffix : jsstring) :
  ~ In question prefix \/ hasRun p n prefix = false ->
  n <= List.length x -> ~ In question x ->
  forall a1 a2, prefix = a1 ++ a2 -> a2 <> [] ->
    matchHere p n (a2 ++ x ++ suffix) = None.
Proof.
  intros Hprefix Hx Hqx a1 a2 Heq Hne.
  assert (La : 0 < List.length a2)
    by (destruct a2; [now elim Hne|simpl; lia]).
  destruct Hprefix as [Hq|Hrun].
  - rewrite app_assoc. apply matchHere_inside.
    + rewrite length_app. lia.
    + intros Hin. apply in_app_or in Hin as [Hin|Hin]; [|auto].
      apply Hq. rewrite Heq. apply in_or_app. now right.
  - unfold matchHere.
    destruct (takeRun p n (a2 ++ x ++ suffix)) as [[m rest]|] eqn:E;
      [|reflexivity].
    rewrite Heq in Hrun. apply hasRun_suffix in Hrun.
    destruct (Nat.le_gt_cases n (List.length a2)) as [Hlong|Hshort].
    + elim (takeRun_within n a2 (x ++ suffix) m rest E Hlong). exact Hrun.
    + destruct (takeRun_across n a2 x suffix m rest E Hne Hshort Hx)
        as (c & l & -> & Hc).
      simpl. destruct (N.eqb_spec c question) as [->|]; [contradiction|].
      reflexivity.
Qed.

End RunFacts.

Section PageIdFacts.

Lemma hexRun_inv (n : nat) (g : jsstring) :
  hexRun n g -> List.length g = n /\ forallb isHex g = true.
Proof.
  unfold hexRun, testExact. rewrite Bool.andb_true_iff, Nat.eqb_eq. tauto.
Qed.

Lemma hex_not_hyphen (c : codeunit) :
  isHex c = true -> (c =? hyphen)%N = false.
Proof. intros H. apply N.eqb_neq. revert H. classes. lia. Qed.

Lemma hex_not_question (c : codeunit) : isHex c = true -> c <> question.
Proof. classes. lia. Qed.

Lemma hexOrHyphen_not_question (c : codeunit) :
  isHexOrHyphen c = true -> c <> question.
Proof. unfold isHexOrHyphen. classes. lia. Qed.

Lemma forallb_not_question (q : codeunit -> bool) (s : jsstring) :
  (forall c, q c = true -> c <> question) ->
  forallb q s = true -> ~ In question s.
Proof.
  intros Hq Hs Hin. rewrite forallb_forall in Hs.
  exact (Hq _ (Hs _ Hin) eq_refl).
Qed.

Lemma removeHyphens_hex (g : jsstring) :
  forallb isHex g = true -> removeHyphens g = g.
Proof.
  unfold removeHyphens. induction g as [|c g IH]; simpl; [reflexivity|].
  rewrite Bool.andb_true_iff. intros [Hc Hg].
  now rewrite (hex_not_hyphen _ Hc), (IH Hg).
Qed.

Lemma removeHyphens_app (a b : jsstring) :
  removeHyphens (a ++ b) = removeHyphens a ++ removeHyphens b.
Proof. apply filter_app. Qed.

Lemma removeHyphens_cons_hyphen (s : jsstring) :
  removeHyphens (hyphen :: s) = removeHyphens s.
Proof. reflexivity. Qed.

Lemma forallb_hex_weaken (g : jsstring) :
  forallb isHex g = true -> forallb isHexOrHyphen g = true.
Proof.
  rewrite !forallb_forall. intros H c Hc. unfold isHexOrHyphen.
  now rewrite (H c Hc).
Qed.

Section Dashed.

Variables g1 g2 g3 g4 g5 : jsstring.
Hypothesis H1 : hexRun 8 g1.
Hypothesis H2 : hexRun 4 g2.
Hypothesis H3 : hexRun 4 g3.
Hypothesis H4 : hexRun 4 g4.
Hypothesis H5 : hexRun 12 g5.

Let d := dashedForm g1 g2 g3 g4 g5.

Lemma dashed_length : List.length d = 36.
Proof.
  destruct (hexRun_inv _ _ H1) as [L1 _], (hexRun_inv _ _ H2) as [L2 _],
    (hexRun_inv _ _ H3) as [L3 _], (hexRun_inv _ _ H4) as [L4 _],
    (hexRun_inv _ _ H5) as [L5 _].
  unfold d, dashedForm.
  repeat (rewrite ?length_app; simpl). lia.
Qed.

Lemma dashed_class : forallb isHexOrHyphen d = true.
Proof.
  destruct (hexRun_inv _ _ H1) as [_ F1], (hexRun_inv _ _ H2) as [_ F2],
    (hexRun_inv _ _ H3) as [_ F3], (hexRun_inv _ _ H4) as [_ F4],
    (hexRun_inv _ _ H5) as [_ F5].
  unfold d, dashedForm.
  repeat (rewrite ?forallb_app; simpl).
  now rewrite !forallb_hex_weaken.
Qed.

Lemma dashed_clean : removeHyphens d = g1 ++ g2 ++ g3 ++ g4 ++ g5.
Proof.
  destruct (hexRun_inv _ _ H1) as [_ F1], (hexRun_inv _ _ H2) as [_ F2],
    (hexRun_inv _ _ H3) as [_ F3], (hexRun_inv _ _ H4) as [_ F4],
    (hexRun_inv _ _ H5) as [_ F5].
  unfold d, dashedForm.
  repeat (rewrite ?removeHyphens_app, ?removeHyphens_cons_hyphen).
  now rewrite !removeHyphens_hex.
Qed.

Lemma dashed_clean_id : hexRun 32 (removeHyphens d).
Proof.
  rewrite dashed_clean.
  destruct (hexRun_inv _ _ H1) as [L1 F1], (hexRun_inv _ _ H2) as [L2 F2],
    (hexRun_inv _ _ H3) as [L3 F3], (hexRun_inv _ _ H4) as [L4 F4],
    (hexRun_inv _ _ H5) as [L5 F5].
  unfold hexRun, testExact.
  rewrite !length_app, !forallb_app, L1, L2, L3, L4, L5, F1, F2, F3, F4, F5.
  reflexivity.
Qed.

(** No 32 digits in a row start in the last 32 places of the dashed
    form, whatever follows a boundary. *)
Lemma dashed_tail_no_match (k tail suffix : jsstring) :
  d = k ++ tail -> tail <> [] -> List.length tail <= 32 ->
  atBoundary suffix = true ->
  takeRun isHex 32 (tail ++ suffix) = None.
Proof.
  intros Hd Hne Hlen Hs.
  destruct (hexRun_inv _ _ H5) as [L5 F5].
  set (front := g1 ++ hyphen :: g2 ++ hyphen :: g3 ++ hyphen :: g4) in *.
  assert (Hsplit : d = front ++ hyphen :: g5).
  { unfold d, dashedForm, front.
    repeat (rewrite <- ?app_assoc; simpl). reflexivity. }
  rewrite Hsplit in Hd.
  destruct (app_eq_app _ _ _ _ Hd) as [l [[Hf Ht]|[Hk Ht]]].
  - (* the tail starts before the last hyphen, or at it *)
    subst tail. rewrite <- app_assoc, <- app_comm_cons.
    apply takeRun_blocked; [|reflexivity].
    rewrite length_app in Hlen. simpl in Hlen. lia.
  - (* the tail starts inside the last group *)
    destruct l as [|c l].
    + simpl in Ht. subst tail.
      change ((hyphen :: g5) ++ suffix) with ([] ++ hyphen :: g5 ++ suffix).
      apply takeRun_blocked; [simpl; lia | reflexivity].
    + injection Ht as _ Ht.
      assert (Ftail : forallb isHex tail = true).
      { rewrite Ht, forallb_app in F5. now apply Bool.andb_true_iff in F5. }
      assert (Ltail : List.length tail <= 12).
      { rewrite <- L5, Ht, length_app. lia. }
      destruct suffix as [|q suffix'].
      * rewrite app_nil_r. apply takeRun_short. lia.
      * simpl in Hs. apply N.eqb_eq in Hs. subst q.
        apply takeRun_blocked; [lia | reflexivity].
Qed.

End Dashed.

Lemma search_app_None (q : codeunit -> bool) (n : nat) (a b : jsstring) :
  (forall a1 a2, a = a1 ++ a2 -> a2 <> [] -> matchHere q n (a2 ++ b) = None) ->
  search q n b = None ->
  search q n (a ++ b) = None.
Proof.
  intros Ha Hb. induction a as [|c a IH]; [exact Hb|].
  assert (H0 : matchHere q n (c :: a ++ b) = None).
  { apply (Ha [] (c :: a) eq_refl). discriminate. }
  simpl app. unfold search; fold search. rewrite H0.
  apply IH. intros a1 a2 -> Hne. apply (Ha (c :: a1) a2 eq_refl Hne).
Qed.

Lemma suffix_of_app (l1 l2 l3 l4 : jsstring) :
  l1 ++ l2 = l3 ++ l4 -> List.length l2 <= List.length l4 ->
  exists k, l4 = k ++ l2.
Proof.
  intros H Hlen.
  destruct (app_eq_app _ _ _ _ H) as [l [[_ H4]|[_ H2]]].
  - now exists l.
  - subst l2. rewrite length_app in Hlen.
    destruct l; [now exists [] | simpl in Hlen; lia].
Qed.

Lemma takeRun_None_weaken (p q : codeunit -> bool) (n m : nat) (s : jsstring) :
  (forall c, q c = true -> p c = true) -> n <= m ->
  takeRun p n s = None -> takeRun q m s = None.
Proof.
  intros Hqp. revert m s. induction n as [|n IH]; intros m s Hle; simpl.
  - discriminate.
  - destruct m as [|m]; [lia|]. simpl.
    destruct s as [|c r]; [reflexivity|].
    destruct (q c) eqn:Hq; [|reflexivity].
    rewrite (Hqp c Hq).
    destruct (takeRun p n r) as [[x y]|] eqn:E; [discriminate|].
    intros _. rewrite (IH m r); [reflexivity | lia | exact E].
Qed.

Lemma hasRun_weaken (p q : codeunit -> bool) (n m : nat) (s : jsstring) :
  (forall c, q c = true -> p c = true) -> n <= m ->
  hasRun p n s = false -> hasRun q m s = false.
Proof.
  intros Hqp Hle. induction s as [|c r IH]; simpl.
  - destruct (takeRun p n []) eqn:E; [discriminate|].
    now rewrite (takeRun_None_weaken p q n m [] Hqp Hle E).
  - destruct (takeRun p n (c :: r)) eqn:E; [discriminate|].
    now rewrite (takeRun_None_weaken p q n m (c :: r) Hqp Hle E).
Qed.

Lemma length_zero_nil (l : jsstring) : List.length l = 0 -> l = [].
Proof. destruct l; [reflexivity | discriminate]. Qed.

(** When the whole input is an id once its hyphens are gone, and a part
    of it already is one, the rest of the input is hyphens only. *)
Lemma clean_exact (prefix x suffix : jsstring) :
  List.length (removeHyphens x) = 32 ->
  testExact isHex 32 (removeHyphens (prefix ++ x ++ suffix)) = true ->
  removeHyphens (prefix ++ x ++ suffix) = removeHyphens x.
Proof.
  intros Hx Ht. unfold testExact in Ht.
  rewrite Bool.andb_true_iff, Nat.eqb_eq in Ht. destruct Ht as [Hlen _].
  rewrite !removeHyphens_app, !length_app, Hx in Hlen.
  rewrite !removeHyphens_app.
  rewrite (length_zero_nil (removeHyphens prefix)) by lia.
  rewrite (length_zero_nil (removeHyphens suffix)) by lia.
  now rewrite app_nil_r.
Qed.

Lemma extractPageId_bare (s : jsstring) :
  hexRun 32 (removeHyphens s) ->
  extractPageId s = Some (removeHyphens s).
Proof. unfold hexRun, extractPageId. now intros ->. Qed.

Lemma search_Some_run (q : codeunit -> bool) (n : nat) (s m : jsstring) :
  search q n s = Some m -> List.length m = n /\ forallb q m = true.
Proof.
  assert (Hhere : forall t, matchHere q n t = Some m ->
                            List.length m = n /\ forallb q m = true).
  { intros t. unfold matchHere.
    destruct (takeRun q n t) as [[x rest]|] eqn:E; [|discriminate].
    destruct (atBoundary rest); [|discriminate].
    intros [= ->]. now destruct (takeRun_Some q n t m rest E) as (_ & ? & ?). }
  induction s as [|c r IH]; simpl.
  - destruct (matchHere q n []) eqn:E; [|discriminate].
    intros [= ->]. exact (Hhere _ E).
  - destruct (matchHere q n (c :: r)) eqn:E; [|exact IH].
    intros [= ->]. exact (Hhere _ E).
Qed.

(** What the first two branches return is an id; only the third branch,
    which strips the hyphens of a 36-character run without testing the
    result, can return anything else. *)
Lemma extractPageId_id_or_third_branch (s r : jsstring) :
  extractPageId s = Some r ->
  hexRun 32 r
  \/ (testExact isHex 32 (removeHyphens s) = false
      /\ search isHex 32 s = None
      /\ exists m, search isHexOrHyphen 36 s = Some m /\ r = removeHyphens m).
Proof.
  unfold extractPageId.
  destruct (testExact isHex 32 (removeHyphens s)) eqn:Ht.
  - intros [= <-]. now left.
  - destruct (search isHex 32 s) as [m|] eqn:E2.
    + intros [= <-]. left.
      destruct (search_Some_run _ _ _ _ E2) as [L F].
      unfold hexRun, testExact. now rewrite L, F.
    + destruct (search isHexOrHyphen 36 s) as [m|] eqn:E3; [|discriminate].
      intros [= <-]. right. repeat split. now exists m.
Qed.

Lemma no_question (s : jsstring) :
  existsb (N.eqb question) s = false -> ~ In question s.
Proof.
  intros H Hin.
  assert (Ht : existsb (N.eqb question) s = true).
  { apply existsb_exists. exists question. split; [exact Hin|].
    apply N.eqb_refl. }
  congruence.
Qed.

Lemma holdsWellFormedId_unfold (s : jsstring) :
  holdsWellFormedId s
  = startsWithGroups [32] s
    || startsWithGroups [8; 4; 4; 4; 12] s
    || match s with
       | [] => false
       | _ :: r => holdsWellFormedId r
       end.
Proof. destruct s; reflexivity. Qed.

(** An input that holds no well-formed id holds no 32 digits in a row. *)
Lemma holdsWellFormedId_no_run (s : jsstring) :
  holdsWellFormedId s = false -> hasRun isHex 32 s = false.
Proof.
  induction s as [|c r IH]; rewrite holdsWellFormedId_unfold;
    rewrite !Bool.orb_false_iff; intros [[H32 _] Hr].
  - reflexivity.
  - unfold startsWithGroups in H32.
    change (hasRun isHex 32 (c :: r))
      with (match takeRun isHex 32 (c :: r) with
            | Some _ => true
            | None => hasRun isHex 32 r
            end).
    destruct (takeRun isHex 32 (c :: r)); [discriminate H32|].
    exact (IH Hr).
Qed.

(** A URL with 32 digits directly before [?] or the end is accepted,
    whatever comes before them, and what is returned is an id. *)
Lemma extractPageId_url_accepted (prefix id32 suffix : jsstring) :
  hexRun 32 id32 -> atBoundary suffix = true ->
  exists r,
    extractPageId (prefix ++ id32 ++ suffix) = Some r /\ hexRun 32 r.
Proof.
  intros Hid Hs. destruct (hexRun_inv _ _ Hid) as [L F].
  unfold extractPageId.
  destruct (testExact isHex 32 (removeHyphens (prefix ++ id32 ++ suffix)))
    eqn:Ht.
  - eexists. split; [reflexivity | exact Ht].
  - destruct (search_complete isHex 32 (prefix ++ id32 ++ suffix))
      as [m Hm].
    { exists prefix, id32, suffix. auto. }
    rewrite Hm. exists m. split; [reflexivity|].
    destruct (search_Some_run _ _ _ _ Hm) as [Lm Fm].
    unfold hexRun, testExact. now rewrite Lm, Fm.
Qed.

(** The id returned is the one before the boundary when no match starts
    earlier: when no [?] comes before it, or no 32 digits in a row do. *)
Lemma extractPageId_url (prefix id32 suffix : jsstring) :
  hexRun 32 id32 -> atBoundary suffix = true ->
  ~ In question prefix \/ hasRun isHex 32 prefix = false ->
  extractPageId (prefix ++ id32 ++ suffix) = Some id32.
Proof.
  intros Hid Hs Hprefix. destruct (hexRun_inv _ _ Hid) as [L F].
  unfold extractPageId.
  destruct (testExact isHex 32 (removeHyphens (prefix ++ id32 ++ suffix)))
    eqn:Ht.
  - rewrite (clean_exact prefix id32 suffix);
      rewrite ?(removeHyphens_hex id32 F); auto.
  - pose proof (matchHere_run isHex id32 suffix F Hs) as Hm.
    rewrite L in Hm.
    rewrite (search_skip isHex 32 prefix (id32 ++ suffix)).
    + now rewrite search_unfold, Hm.
    + apply matchHere_before; [exact Hprefix | lia |].
      exact (forallb_not_question isHex id32 hex_not_question F).
Qed.

Lemma extractPageId_url_dashed_accepted
  (prefix g1 g2 g3 g4 g5 suffix : jsstring) :
  hexRun 8 g1 -> hexRun 4 g2 -> hexRun 4 g3 -> hexRun 4 g4 -> hexRun 12 g5 ->
  atBoundary suffix = true ->
  exists r,
    extractPageId (prefix ++ dashedForm g1 g2 g3 g4 g5 ++ suffix) = Some r.
Proof.
  intros H1 H2 H3 H4 H5 Hs.
  set (d := dashedForm g1 g2 g3 g4 g5).
  pose proof (dashed_length g1 g2 g3 g4 g5 H1 H2 H3 H4 H5) as Ld.
  pose proof (dashed_class g1 g2 g3 g4 g5 H1 H2 H3 H4 H5) as Fd.
  fold d in Ld, Fd.
  unfold extractPageId.
  destruct (testExact isHex 32 (removeHyphens (prefix ++ d ++ suffix)));
    [eexists; reflexivity|].
  destruct (search isHex 32 (prefix ++ d ++ suffix));
    [eexists; reflexivity|].
  destruct (search_complete isHexOrHyphen 36 (prefix ++ d ++ suffix))
    as [m Hm].
  { exists prefix, d, suffix. auto. }
  rewrite Hm. eexists. reflexivity.
Qed.

Lemma extractPageId_url_dashed (prefix g1 g2 g3 g4 g5 suffix : jsstring) :
  hexRun 8 g1 -> hexRun 4 g2 -> hexRun 4 g3 -> hexRun 4 g4 -> hexRun 12 g5 ->
  atBoundary suffix = true ->
  ~ In question prefix \/ hasRun isHexOrHyphen 32 prefix = false ->
  ~ runBefore isHex 32 suffix ->
  extractPageId (prefix ++ dashedForm g1 g2 g3 g4 g5 ++ suffix)
  = Some (g1 ++ g2 ++ g3 ++ g4 ++ g5).
Proof.
  intros H1 H2 H3 H4 H5 Hs Hprefix Hsuffix.
  set (d := dashedForm g1 g2 g3 g4 g5).
  pose proof (dashed_length g1 g2 g3 g4 g5 H1 H2 H3 H4 H5) as Ld.
  pose proof (dashed_class g1 g2 g3 g4 g5 H1 H2 H3 H4 H5) as Fd.
  pose proof (dashed_clean g1 g2 g3 g4 g5 H1 H2 H3 H4 H5) as Cd.
  pose proof (dashed_clean_id g1 g2 g3 g4 g5 H1 H2 H3 H4 H5) as Id.
  fold d in Ld, Fd, Cd, Id.
  assert (Hqd : ~ In question d)
    by exact (forallb_not_question isHexOrHyphen d hexOrHyphen_not_question
                Fd).
  assert (Hweak : forall c, isHex c = true -> isHexOrHyphen c = true).
  { intros c Hc. unfold isHexOrHyphen. now rewrite Hc. }
  unfold extractPageId.
  destruct (testExact isHex 32 (removeHyphens (prefix ++ d ++ suffix))) eqn:Ht.
  - rewrite clean_exact; [now rewrite Cd | | exact Ht].
    now destruct (hexRun_inv _ _ Id).
  - assert (Hnone : search isHex 32 (prefix ++ d ++ suffix) = None).
    { rewrite (search_skip isHex 32 prefix (d ++ suffix)).
      - apply search_app_None.
        + intros a1 a2 Heq Hne.
          destruct (Nat.ltb_spec 32 (List.length a2)) as [Hlong|Hshort].
          * apply matchHere_inside; [exact Hlong|].
            intros Hin. apply Hqd. rewrite Heq. apply in_or_app. now right.
          * unfold matchHere.
            now rewrite (dashed_tail_no_match g1 g2 g3 g4 g5 H5 a1 a2 suffix
                           Heq Hne Hshort Hs).
        + now apply search_None_iff.
      - apply matchHere_before; [|lia|exact Hqd].
        destruct Hprefix as [Hq|Hrun]; [now left|right].
        apply (hasRun_weaken isHexOrHyphen isHex 32 32);
          [exact Hweak | lia | exact Hrun]. }
    rewrite Hnone.
    pose proof (matchHere_run isHexOrHyphen d suffix Fd Hs) as Hm.
    rewrite Ld in Hm.
    rewrite (search_skip isHexOrHyphen 36 prefix (d ++ suffix)).
    + rewrite search_unfold, Hm. now rewrite Cd.
    + apply matchHere_before; [|lia|exact Hqd].
      destruct Hprefix as [Hq|Hrun]; [now left|right].
      apply (hasRun_weaken isHexOrHyphen isHexOrHyphen 32 36);
        [auto | lia | exact Hrun].
Qed.

(** Null is returned when no branch matches. *)
Lemma extractPageId_none (s : jsstring) :
  testExact isHex 32 (removeHyphens s) = false ->
  ~ runBefore isHex 32 s ->
  ~ runBefore isHexOrHyphen 36 s ->
  extractPageId s = None.
Proof.
  intros Ht H2 H3. unfold extractPageId. rewrite Ht.
  rewrite (proj2 (search_None_iff isHex 32 s) H2).
  now rewrite (proj2 (search_None_iff isHexOrHyphen 36 s) H3).
Qed.

(** And only then: the three conditions leave out no input on which null
    is returned. *)
Lemma extractPageId_None_inv (s : jsstring) :
  extractPageId s = None ->
  testExact isHex 32 (removeHyphens s) = false
  /\ ~ runBefore isHex 32 s
  /\ ~ runBefore isHexOrHyphen 36 s.
Proof.
  unfold extractPageId.
  destruct (testExact isHex 32 (removeHyphens s)); [discriminate|].
  destruct (search isHex 32 s) eqn:E2; [discriminate|].
  destruct (search isHexOrHyphen 36 s) eqn:E3; [discriminate|].
  intros _. split; [reflexivity|].
  split; now apply search_None_iff.
Qed.

(** C8, as the code has it.  Extraction returns the id, hyphens removed,
    for every input that is 32 hexadecimal digits once all its hyphens are
    removed, wherever they stand.  It accepts every URL in which 32 digits,
    or the dashed form, are directly followed by [?] or by the end of the
    input, whatever comes before them, in the path or in the query; with
    32 digits what it returns is an id, and it is the id before the
    boundary when no [?] or no 32 digits in a row come before it; with the
    dashed form it is that id, hyphens removed, when no [?] or no 32
    digits or hyphens in a row come before it and no 32 digits stand
    directly before a [?] or the end after it.  It returns null for every
    input that is not 32 digits once its hyphens are removed and in which
    neither 32 digits nor 36 digits or hyphens stand directly before a
    [?] or the end; in particular for every input that holds no
    well-formed id, is not an id hyphenated otherwise, and has no 36
    digits or hyphens directly before a [?] or the end.  It is a total
    function, and on null the caller throws the invalid-id error. *)
Theorem extractPageId_accepts_and_rejects :
  (forall s : jsstring,
      hexRun 32 (removeHyphens s) ->
      extractPageId s = Some (removeHyphens s))
  /\ (forall prefix id32 suffix : jsstring,
        hexRun 32 id32 -> atBoundary suffix = true ->
        exists r,
          extractPageId (prefix ++ id32 ++ suffix) = Some r /\ hexRun 32 r)
  /\ (forall prefix id32 suffix : jsstring,
        hexRun 32 id32 -> atBoundary suffix = true ->
        ~ In question prefix \/ hasRun isHex 32 prefix = false ->
        extractPageId (prefix ++ id32 ++ suffix) = Some id32)
  /\ (forall prefix g1 g2 g3 g4 g5 suffix : jsstring,
        hexRun 8 g1 -> hexRun 4 g2 -> hexRun 4 g3 -> hexRun 4 g4 ->
        hexRun 12 g5 ->
        atBoundary suffix = true ->
        exists r,
          extractPageId (prefix ++ dashedForm g1 g2 g3 g4 g5 ++ suffix)
          = Some r)
  /\ (forall prefix g1 g2 g3 g4 g5 suffix : jsstring,
        hexRun 8 g1 -> hexRun 4 g2 -> hexRun 4 g3 -> hexRun 4 g4 ->
        hexRun 12 g5 ->
        atBoundary suffix = true ->
        ~ In question prefix \/ hasRun isHexOrHyphen 32 prefix = false ->
        ~ runBefore isHex 32 suffix ->
        extractPageId (prefix ++ dashedForm g1 g2 g3 g4 g5 ++ suffix)
        = Some (g1 ++ g2 ++ g3 ++ g4 ++ g5))
  /\ (forall s : jsstring,
        testExact isHex 32 (removeHyphens s) = false ->
        ~ runBefore isHex 32 s ->
        ~ runBefore isHexOrHyphen 36 s ->
        extractPageId s = None)
  /\ (forall s : jsstring,
        holdsWellFormedId s = false ->
        testExact isHex 32 (removeHyphens s) = false ->
        ~ runBefore isHexOrHyphen 36 s ->
        extractPageId s = None)
  /\ (forall s : jsstring,
        extractPageId s = None ->
        fetchNotionPage_check true s
        = Throws (js "Invalid Notion page URL or ID")).
Proof.
  split; [exact extractPageId_bare|].
  split; [exact extractPageId_url_accepted|].
  split; [exact extractPageId_url|].
  split; [exact extractPageId_url_dashed_accepted|].
  split; [exact extractPageId_url_dashed|].
  split; [exact extractPageId_none|].
  split.
  - intros s Hid Ht H3. apply (extractPageId_none s Ht); [|exact H3].
    apply search_None_iff. apply search_no_run.
    exact (holdsWellFormedId_no_run s Hid).
  - intros s Hs. unfold fetchNotionPage_check. now rewrite Hs.
Qed.

(** C8 at work: a dashed id; an id at the end of the path, before the
    query; an id in the query; a dashed id in a URL; an input without id;
    a URL whose dashed id is followed by more of the path, which is
    rejected. *)
Lemma extractPageId_accepts_and_rejects_witness :
  extractPageId (js "12345678-1234-1234-1234-123456789abc")
  = Some (js "12345678123412341234123456789abc")
  /\ extractPageId
       (js "https://www.notion.so/Page-Title-"
          ++ js "0123456789abcdef0123456789ABCDEF" ++ js "?pvs=4")
     = Some (js "0123456789abcdef0123456789ABCDEF")
  /\ extractPageId
       (js "https://www.notion.so/page?p="
          ++ js "0123456789abcdef0123456789ABCDEF" ++ [])
     = Some (js "0123456789abcdef0123456789ABCDEF")
  /\ (exists r,
        extractPageId
          (js "https://www.notion.so/0123456789abcdef0123456789abcdef?p="
             ++ js "fedcba9876543210fedcba9876543210" ++ [])
        = Some r
        /\ hexRun 32 r)
  /\ extractPageId
       (js "https://www.notion.so/"
          ++ dashedForm (js "12345678") (js "1234") (js "1234") (js "1234")
               (js "123456789abc")
          ++ js "?pvs=4")
     = Some (js "12345678" ++ js "1234" ++ js "1234" ++ js "1234"
               ++ js "123456789abc")
  /\ (exists r,
        extractPageId
          (js "https://www.notion.so/page?id="
             ++ dashedForm (js "12345678") (js "1234") (js "1234")
                  (js "1234") (js "123456789abc")
             ++ [])
        = Some r)
  /\ extractPageId (js "https://example.com/page") = None
  /\ extractPageId
       (js "https://notion.so/12345678-1234-1234-1234-123456789abc/edit")
     = None
  /\ fetchNotionPage_check true (js "https://example.com/page")
     = Throws (js "Invalid Notion page URL or ID").
Proof.
  destruct extractPageId_accepts_and_rejects
    as (Ha & Hb & Hb' & Hc & Hc' & Hd & Hd' & He).
  assert (Hnone : forall q n s, search q n s = None -> ~ runBefore q n s)
    by (intros q n s; apply search_None_iff).
  split; [|split; [|split; [|split; [|split; [|split; [|split; [|split]]]]]]].
  - apply (Ha (js "12345678-1234-1234-1234-123456789abc")). reflexivity.
  - apply Hb'; [reflexivity | reflexivity |].
    left. apply no_question. reflexivity.
  - apply Hb'; [reflexivity | reflexivity |]. right. reflexivity.
  - apply Hb; reflexivity.
  - apply Hc'; try reflexivity.
    + left. apply no_question. reflexivity.
    + apply Hnone. reflexivity.
  - apply Hc; reflexivity.
  - apply Hd'; try reflexivity. apply Hnone. reflexivity.
  - apply Hd; try reflexivity; apply Hnone; reflexivity.
  - apply He. apply Hd'; try reflexivity. apply Hnone. reflexivity.
Defined.

(** C8, as the specification words it, fails on an id hyphenated otherwise
    than in the dashed form: the input holds neither 32 digits in a row nor
    the dashed form, and extraction still returns an id, since the source
    removes every hyphen before it tests the input. *)
Lemma extractPageId_any_hyphenation :
  holdsWellFormedId (js "0123456789abcdef-0123456789abcdef") = false
  /\ extractPageId (js "0123456789abcdef-0123456789abcdef")
     = Some (js "0123456789abcdef0123456789abcdef")
  /\ extractPageId (js "0123456789abcdef-0123456789abcdef") <> None.
Proof. repeat split; try reflexivity. vm_compute. discriminate. Qed.

(** C10 at the failing input: a URL that ends in a title made of
    hexadecimal letters and hyphens, and holds no id.  The third branch
    takes its last 36 code units and returns them without their hyphens: 29
    characters, not an id. *)
Theorem extractPageId_returns_non_id :
  extractPageId
    (js "https://www.notion.so/Decade-Facade-added-a-dead-beef-cafe-babe")
  = Some (js "eFacadeaddedadeadbeefcafebabe")
  /\ List.length (js "eFacadeaddedadeadbeefcafebabe") = 29
  /\ testExact isHex 32 (js "eFacadeaddedadeadbeefcafebabe") = false
  /\ fetchNotionPage_check true
       (js "https://www.notion.so/Decade-Facade-added-a-dead-beef-cafe-babe")
     = PageId (js "eFacadeaddedadeadbeefcafebabe").
Proof. repeat split; reflexivity. Qed.

End PageIdFacts.

(** ** Table of contents and title *)

Section TocFacts.

Import Markdown.

Lemma level_cases (level : N) :
  ((1 <=? level) && (level <=? 6))%N = true ->
  level = 1%N \/ level = 2%N \/ level = 3%N \/ level = 4%N \/ level = 5%N
  \/ level = 6%N.
Proof. classes. lia. Qed.

Lemma tocStep_other (token : Token) (later : list Token)
  (acc : list TocEntry) :
  opensHeading token = false -> tocStep token later acc = acc.
Proof. unfold tocStep, opensHeading. now intros ->. Qed.

Lemma tocLoop_other (tokens rest : list Token) (acc : list TocEntry) :
  forallb (fun token => negb (opensHeading token)) tokens = true ->
  tocLoop (tokens ++ rest) acc = tocLoop rest acc.
Proof.
  induction tokens as [|token tokens IH]; simpl; [reflexivity|].
  rewrite Bool.andb_true_iff, Bool.negb_true_iff. intros [Ht Hts].
  now rewrite (tocStep_other _ _ _ Ht), (IH Hts).
Qed.

Lemma tocLoop_heading (level : N) (t : jsstring) (rest : list Token)
  (acc : list TocEntry) :
  ((1 <=? level) && (level <=? 6))%N = true ->
  tocLoop (segmentTokens (Heading level t) ++ rest) acc
  = tocLoop rest
      (acc ++ if ((2 <=? level) && (level <=? 3))%N
              then [{| id := slugify t; text := t; level := level |}]
              else []).
Proof.
  intros Hl.
  destruct (level_cases level Hl)
    as [ -> | [ -> | [ -> | [ -> | [ -> | -> ] ] ] ] ];
    simpl; unfold tocStep; simpl; rewrite ?app_nil_r; reflexivity.
Qed.

Lemma tocLoop_tokensOf (doc : list Segment) (acc : list TocEntry) :
  forallb wellFormed doc = true ->
  tocLoop (tokensOf doc) acc = acc ++ tocOf doc.
Proof.
  revert acc. induction doc as [|seg doc IH]; intros acc; simpl.
  - now rewrite app_nil_r.
  - rewrite Bool.andb_true_iff. intros [Hseg Hdoc].
    destruct seg as [level t|tokens].
    + rewrite tocLoop_heading by exact Hseg.
      rewrite (IH _ Hdoc). now rewrite <- app_assoc.
    + simpl segmentTokens. rewrite tocLoop_other by exact Hseg.
      now rewrite (IH _ Hdoc).
Qed.

Lemma extractTitle_other (tokens rest : list Token) :
  forallb (fun token => negb (opensHeading token)) tokens = true ->
  extractTitle (tokens ++ rest) = extractTitle rest.
Proof.
  induction tokens as [|token tokens IH]; simpl; [reflexivity|].
  rewrite Bool.andb_true_iff, Bool.negb_true_iff. intros [Ht Hts].
  unfold opensHeading in Ht. rewrite Ht. simpl. exact (IH Hts).
Qed.

Lemma extractTitle_heading (level : N) (t : jsstring) (rest : list Token) :
  ((1 <=? level) && (level <=? 6))%N = true ->
  extractTitle (segmentTokens (Heading level t) ++ rest)
  = if (level =? 1)%N then Some t else extractTitle rest.
Proof.
  intros Hl.
  destruct (level_cases level Hl)
    as [ -> | [ -> | [ -> | [ -> | [ -> | -> ] ] ] ] ];
    reflexivity.
Qed.

Lemma extractTitle_tokensOf (doc : list Segment) :
  forallb wellFormed doc = true ->
  extractTitle (tokensOf doc) = titleOf doc.
Proof.
  induction doc as [|seg doc IH]; simpl; [reflexivity|].
  rewrite Bool.andb_true_iff. intros [Hseg Hdoc].
  destruct seg as [level t|tokens].
  - rewrite extractTitle_heading by exact Hseg. now rewrite (IH Hdoc).
  - simpl segmentTokens. rewrite extractTitle_other by exact Hseg.
    exact (IH Hdoc).
Qed.

(** *** Results of [parseMarkdown] *)

Lemma parseMarkdown_run (md : MarkdownIt) (content : jsstring)
  (log : list jsstring) :
  parseMarkdown md content log
  = ({| html := renderTokens md (parse md content);
        toc := extractToc (parse md content);
        title := extractTitle (parse md content) |},
     (log ++ [content]) ++ [content]).
Proof. reflexivity. Qed.

(** Every entry of the table of contents carries the slug of its own
    text: the chain written out in [extractToc] is the [slugify] handed to
    the anchor plug-in. *)
Lemma tocLoop_ids (tokens : list Token) (acc : list TocEntry) :
  Forall (fun entry => id entry = slugify (text entry)) acc ->
  Forall (fun entry => id entry = slugify (text entry)) (tocLoop tokens acc).
Proof.
  revert acc. induction tokens as [|token later IH]; intros acc Hacc; simpl.
  - exact Hacc.
  - apply IH. unfold tocStep.
    destruct (eqb (type token) (js "heading_open")); [|exact Hacc].
    destruct (parseInt (slice1 (tag token))) as [level|]; [|exact Hacc].
    destruct ((2 <=? level) && (level <=? 3))%N; [|exact Hacc].
    destruct later as [|contentToken later']; [exact Hacc|].
    destruct (eqb (type contentToken) (js "inline")); [|exact Hacc].
    apply Forall_app. split; [exact Hacc|]. repeat constructor.
Qed.

Lemma extractToc_ids (tokens : list Token) :
  Forall (fun entry => id entry = slugify (text entry)) (extractToc tokens).
Proof. apply tocLoop_ids. constructor. Qed.

(** C5.  For every parsed document, the table of contents holds exactly
    the headings of level 2 and 3 in document order, each with the slug of
    its text, and the title is the inline content of the first heading of
    level 1, or absent when there is none.  For the input
    [# Title], [## One], [content], [### Two] the title is [Title] and the
    table of contents is [one]/[One]/2, [two]/[Two]/3. *)
Theorem toc_and_title_of_parsed_document :
  (forall (md : MarkdownIt) (content : jsstring) (doc : list Segment),
      forallb wellFormed doc = true ->
      parse md content = tokensOf doc ->
      toc (result (parseMarkdown md content)) = tocOf doc
      /\ title (result (parseMarkdown md content)) = titleOf doc)
  /\ (forall md : MarkdownIt,
        parse md exampleInput = tokensOf exampleDoc ->
        title (result (parseMarkdown md exampleInput)) = Some (js "Title")
        /\ toc (result (parseMarkdown md exampleInput))
           = [ {| id := js "one"; text := js "One"; level := 2 |};
               {| id := js "two"; text := js "Two"; level := 3 |} ]).
Proof.
  assert (Hgen : forall md content doc,
             forallb wellFormed doc = true ->
             parse md content = tokensOf doc ->
             toc (result (parseMarkdown md content)) = tocOf doc
             /\ title (result (parseMarkdown md content)) = titleOf doc).
  { intros md content doc Hwf Hparse.
    unfold result. rewrite parseMarkdown_run. simpl. rewrite Hparse. split.
    - unfold extractToc. now rewrite tocLoop_tokensOf.
    - now apply extractTitle_tokensOf. }
  split; [exact Hgen|].
  intros md Hparse.
  destruct (Hgen md exampleInput exampleDoc eq_refl Hparse) as [Htoc Htitle].
  rewrite Htoc, Htitle. split; reflexivity.
Qed.

(** C5 at work on the example input. *)
Lemma toc_and_title_of_parsed_document_witness :
  forallb wellFormed exampleDoc = true
  /\ parse atx exampleInput = tokensOf exampleDoc
  /\ title (result (parseMarkdown atx exampleInput)) = Some (js "Title")
  /\ toc (result (parseMarkdown atx exampleInput))
     = [ {| id := js "one"; text := js "One"; level := 2 |};
         {| id := js "two"; text := js "Two"; level := 3 |} ].
Proof.
  split; [reflexivity|]. split; [reflexivity|].
  exact (proj2 toc_and_title_of_parsed_document atx eq_refl).
Defined.

(** *** One parse or two *)

(** C3, as the code has it.  [parseMarkdown] runs the parser twice on the
    same input: once through [md.parse], for the table of contents and the
    title, and once more inside [md.render], for the HTML.  The three
    outputs are those of a single parse all the same: the HTML is the
    rendering of the token stream the parser gives for the input, and the
    table of contents and the title are extracted from that stream. *)
Theorem parseMarkdown_parses_twice (md : MarkdownIt) (content : jsstring) :
  parserRuns (parseMarkdown md content) = [content; content]
  /\ html (result (parseMarkdown md content))
     = renderTokens md (parse md content)
  /\ toc (result (parseMarkdown md content)) = extractToc (parse md content)
  /\ title (result (parseMarkdown md content))
     = extractTitle (parse md content)
  /\ result (parseMarkdown md content) = result (parseMarkdownOnce md content).
Proof. repeat split. Qed.

(** C3, as the specification words it, fails: the parser does not run
    exactly once, and the runs differ from those of the single-parse
    computation. *)
Lemma parseMarkdown_not_single_parse :
  List.length (parserRuns (parseMarkdown atx exampleInput)) = 2
  /\ List.length (parserRuns (parseMarkdownOnce atx exampleInput)) = 1
  /\ parserRuns (parseMarkdown atx exampleInput)
     <> parserRuns (parseMarkdownOnce atx exampleInput).
Proof.
  repeat split.
  intros H. apply (f_equal (@List.length jsstring)) in H. discriminate H.
Qed.

End TocFacts.

(** ** Paginated retrieval *)

Section RetrievalFacts.

Variable list_children : Provider.

(** The loop ends on an answer that announces no more, or that hands out
    no cursor or an empty one. *)
Lemma fetchPages_stops (blockId : jsstring) (cursor : option jsstring)
  (response : Response) (fuel : nat) (blocks : list Block) :
  list_children blockId cursor = Some response ->
  has_more response = false \/ truthyOpt (next_cursor response) = false ->
  fetchPages (S fuel) list_children blockId cursor blocks
  = Done (blocks ++ results response).
Proof.
  intros Hresp Hlast. simpl. rewrite Hresp.
  destruct (has_more response).
  - destruct Hlast as [Hlast|Hlast]; [discriminate Hlast|].
    now rewrite Hlast.
  - reflexivity.
Qed.

(** It goes on from an answer that announces more and hands out a
    non-empty cursor, asking for the next page with that cursor. *)
Lemma fetchPages_goes_on (blockId : jsstring) (cursor : option jsstring)
  (response : Response) (next : jsstring) (fuel : nat)
  (blocks : list Block) :
  list_children blockId cursor = Some response ->
  has_more response = true ->
  next_cursor response = Some next ->
  truthy next = true ->
  fetchPages (S fuel) list_children blockId cursor blocks
  = fetchPages fuel list_children blockId (Some next)
      (blocks ++ results response).
Proof.
  intros Hresp Hmore Hnext Htruthy. simpl.
  rewrite Hresp, Hmore, Hnext. simpl. now rewrite Htruthy.
Qed.

(** The loop collects the pages in the order received. *)
Lemma fetchPages_serves (blockId : jsstring) (cursor : option jsstring)
  (pages : list (list Block)) :
  servesPages list_children blockId cursor pages ->
  forall (fuel : nat) (blocks : list Block),
    List.length pages <= fuel ->
    fetchPages fuel list_children blockId cursor blocks
    = Done (blocks ++ List.concat pages).
Proof.
  induction 1 as [cursor response Hresp Hmore
                 |cursor response Hresp Hmore Hnone
                 |cursor response next pages Hresp Hmore Hnext Htruthy _ IH];
    intros fuel blocks Hfuel.
  - destruct fuel as [|fuel]; [simpl in Hfuel; lia|].
    rewrite (fetchPages_stops blockId cursor response fuel blocks Hresp)
      by (left; exact Hmore).
    simpl. now rewrite app_nil_r.
  - destruct fuel as [|fuel]; [simpl in Hfuel; lia|].
    rewrite (fetchPages_stops blockId cursor response fuel blocks Hresp)
      by (right; exact Hnone).
    simpl. now rewrite app_nil_r.
  - destruct fuel as [|fuel]; [simpl in Hfuel; lia|].
    rewrite (fetchPages_goes_on blockId cursor response next fuel blocks
               Hresp Hmore Hnext Htruthy).
    rewrite IH by (simpl in Hfuel; lia). now rewrite <- app_assoc.
Qed.

(** Every run of the loop that returns has received such pages: the
    relation leaves out no answer the loop returns on. *)
Lemma fetchPages_served (fuel : nat) :
  forall (blockId : jsstring) (cursor : option jsstring)
         (blocks out : list Block),
    fetchPages fuel list_children blockId cursor blocks = Done out ->
    exists pages,
      servesPages list_children blockId cursor pages
      /\ List.length pages <= fuel
      /\ out = blocks ++ List.concat pages.
Proof.
  induction fuel as [|fuel IH]; intros blockId cursor blocks out Hrun;
    [discriminate Hrun|].
  destruct (list_children blockId cursor) as [response|] eqn:Hresp;
    [|simpl in Hrun; rewrite Hresp in Hrun; discriminate Hrun].
  destruct (has_more response) eqn:Hmore.
  - destruct (truthyOpt (next_cursor response)) eqn:Hcursor.
    + destruct (next_cursor response) as [next|] eqn:Hnext;
        [|discriminate Hcursor].
      rewrite (fetchPages_goes_on blockId cursor response next fuel blocks
                 Hresp Hmore Hnext Hcursor) in Hrun.
      destruct (IH blockId (Some next) (blocks ++ results response) out Hrun)
        as (pages & Hpages & Hlen & Hout).
      exists (results response :: pages). split; [|split].
      * exact (serves_more list_children blockId cursor response next pages
                 Hresp Hmore Hnext Hcursor Hpages).
      * simpl. lia.
      * rewrite Hout. simpl. now rewrite <- app_assoc.
    + rewrite (fetchPages_stops blockId cursor response fuel blocks Hresp)
        in Hrun by (right; exact Hcursor).
      exists [results response]. split; [|split].
      * exact (serves_no_cursor list_children blockId cursor response
                 Hresp Hmore Hcursor).
      * simpl. lia.
      * injection Hrun as <-. simpl. now rewrite app_nil_r.
  - rewrite (fetchPages_stops blockId cursor response fuel blocks Hresp)
      in Hrun by (left; exact Hmore).
    exists [results response]. split; [|split].
    + exact (serves_last list_children blockId cursor response Hresp Hmore).
    + simpl. lia.
    + injection Hrun as <-. simpl. now rewrite app_nil_r.
Qed.

Lemma fetchAllBlocks_S (fuel : nat) (blockId : jsstring) :
  fetchAllBlocks (S fuel) list_children blockId
  = bind (fetchPages (S fuel) list_children blockId None [])
      (fillChildren (fetchAllBlocks fuel list_children)).
Proof. reflexivity. Qed.

Lemma fillChildren_cons (expand : jsstring -> Outcome (list Block))
  (block : Block) (rest : list Block) :
  fillChildren expand (block :: rest)
  = bind (fillOne expand block)
      (fun block' =>
         bind (fillChildren expand rest)
           (fun rest' => Done (block' :: rest'))).
Proof. reflexivity. Qed.

Lemma fetchAllBlocks_serves_mut :
  (forall blockId kids,
      servesChildren list_children blockId kids ->
      exists n, forall fuel, n <= fuel ->
        fetchAllBlocks fuel list_children blockId = Done kids)
  /\ (forall raw kids,
        expandsAll list_children raw kids ->
        exists n, forall fuel, n <= fuel ->
          fillChildren (fetchAllBlocks fuel list_children) raw = Done kids)
  /\ (forall block block',
        expands list_children block block' ->
        exists n, forall fuel, n <= fuel ->
          fillOne (fetchAllBlocks fuel list_children) block = Done block').
Proof.
  apply (serves_mutind list_children).
  - intros blockId pages kids Hpages _ [n Hn].
    exists (Nat.max (List.length pages) (S n)). intros fuel Hfuel.
    destruct fuel as [|fuel]; [lia|].
    rewrite fetchAllBlocks_S.
    rewrite (fetchPages_serves blockId None pages Hpages (S fuel) []) by lia.
    simpl. apply Hn. lia.
  - exists 0. reflexivity.
  - intros block block' rest rest' _ [n1 H1] _ [n2 H2].
    exists (Nat.max n1 n2). intros fuel Hfuel.
    rewrite fillChildren_cons.
    rewrite H1 by lia. simpl. rewrite H2 by lia. reflexivity.
  - intros block Hleaf. exists 0. intros fuel _. unfold fillOne.
    now rewrite Hleaf.
  - intros block kids Hnode _ [n Hn]. exists n. intros fuel Hfuel.
    unfold fillOne. rewrite Hnode, Hn by exact Hfuel. reflexivity.
Qed.

(** Conversely, a retrieval that returns has been served the forest it
    returns. *)
Lemma fetchAllBlocks_served (fuel : nat) :
  forall (blockId : jsstring) (kids : list Block),
    fetchAllBlocks fuel list_children blockId = Done kids ->
    servesChildren list_children blockId kids.
Proof.
  induction fuel as [|fuel IH]; intros blockId kids Hrun;
    [discriminate Hrun|].
  rewrite fetchAllBlocks_S in Hrun.
  destruct (fetchPages (S fuel) list_children blockId None [])
    as [raw| |] eqn:Hpages; try discriminate Hrun.
  destruct (fetchPages_served (S fuel) blockId None [] raw Hpages)
    as (pages & Hserved & _ & Hraw).
  simpl in Hraw. subst raw.
  apply (serves_children list_children blockId pages kids Hserved).
  simpl in Hrun. clear Hpages Hserved. revert kids Hrun.
  induction (List.concat pages) as [|block rest IHrest]; intros kids Hrun.
  - injection Hrun as <-. constructor.
  - rewrite fillChildren_cons in Hrun.
    destruct (fillOne (fetchAllBlocks fuel list_children) block)
      as [block'| |] eqn:Hone; try discriminate Hrun.
    simpl in Hrun.
    destruct (fillChildren (fetchAllBlocks fuel list_children) rest)
      as [rest'| |] eqn:Hrest; try discriminate Hrun.
    injection Hrun as <-.
    constructor; [|exact (IHrest rest' eq_refl)].
    unfold fillOne in Hone.
    destruct (has_children block) eqn:Hnode.
    + destruct (fetchAllBlocks fuel list_children (id block))
        as [cs| |] eqn:Hcs; try discriminate Hone.
      injection Hone as <-.
      exact (expands_node list_children block cs Hnode
               (IH (id block) cs Hcs)).
    + injection Hone as <-.
      exact (expands_leaf list_children block Hnode).
Qed.

End RetrievalFacts.

Section PaginationFacts.

Lemma expandsAll_leaves (list_children : Provider) (blocks : list Block) :
  forallb (fun block => negb (has_children block)) blocks = true ->
  expandsAll list_children blocks blocks.
Proof.
  induction blocks as [|block rest IH]; simpl; [constructor|].
  rewrite Bool.andb_true_iff, Bool.negb_true_iff. intros [Hb Hrest].
  constructor; [now apply expands_leaf | exact (IH Hrest)].
Qed.

(** C4.  Two providers that hold the same forest of blocks, in the same
    order, cut into pages in any two ways at any node, give the same
    markdown: with enough fuel, which stands for the time the loops take,
    retrieval returns the forest and linearisation its markdown, whatever
    the pages.  At one node the loop asks for the first page without
    cursor, then for each next page with the cursor the answer before
    handed out, until an answer hands out no cursor to go on with, and it
    returns the pages it received, concatenated in that order.  The loop
    ends on the first answer that announces no more, or that hands out no
    cursor or an empty one, and on no other; and every retrieval that
    returns has been served its result in this way, so that the first
    statement leaves out no provider on which the code returns. *)
Theorem pagination_does_not_change_markdown :
  (forall (paged single : Provider) (root root' : jsstring)
          (kids : list Block),
      servesChildren paged root kids ->
      servesChildren single root' kids ->
      exists n, forall fuel, n <= fuel ->
        fetchAllBlocks fuel paged root = Done kids
        /\ fetchMarkdown fuel paged root = Done (blocksToMarkdown kids 0)
        /\ fetchMarkdown fuel paged root = fetchMarkdown fuel single root')
  /\ (forall (list_children : Provider) (blockId : jsstring)
             (pages : list (list Block)),
        servesPages list_children blockId None pages ->
        forall fuel, List.length pages <= fuel ->
          fetchPages fuel list_children blockId None []
          = Done (List.concat pages))
  /\ (forall (list_children : Provider) (blockId : jsstring)
             (cursor : option jsstring) (response : Response)
             (fuel : nat) (blocks : list Block),
        list_children blockId cursor = Some response ->
        has_more response = false
        \/ next_cursor response = None
        \/ next_cursor response = Some [] ->
        fetchPages (S fuel) list_children blockId cursor blocks
        = Done (blocks ++ results response))
  /\ (forall (list_children : Provider) (blockId : jsstring)
             (cursor : option jsstring) (response : Response)
             (next : jsstring) (fuel : nat) (blocks : list Block),
        list_children blockId cursor = Some response ->
        has_more response = true ->
        next_cursor response = Some next ->
        next <> [] ->
        fetchPages (S fuel) list_children blockId cursor blocks
        = fetchPages fuel list_children blockId (Some next)
            (blocks ++ results response))
  /\ (forall (list_children : Provider) (blockId : jsstring)
             (fuel : nat) (kids : list Block),
        fetchAllBlocks fuel list_children blockId = Done kids ->
        servesChildren list_children blockId kids
        /\ fetchMarkdown fuel list_children blockId
           = Done (blocksToMarkdown kids 0)).
Proof.
  split; [|split; [|split; [|split]]].
  - intros paged single root root' kids Hpaged Hsingle.
    destruct (proj1 (fetchAllBlocks_serves_mut paged) root kids Hpaged)
      as [n1 H1].
    destruct (proj1 (fetchAllBlocks_serves_mut single) root' kids Hsingle)
      as [n2 H2].
    exists (Nat.max n1 n2). intros fuel Hfuel.
    unfold fetchMarkdown. rewrite H1, H2 by lia. repeat split.
  - intros list_children blockId pages Hpages fuel Hfuel.
    exact (fetchPages_serves list_children blockId None pages Hpages
             fuel [] Hfuel).
  - intros list_children blockId cursor response fuel blocks Hresp Hlast.
    apply (fetchPages_stops list_children blockId cursor response fuel
             blocks Hresp).
    destruct Hlast as [Hlast|[Hlast|Hlast]];
      [left; exact Hlast|right; now rewrite Hlast..].
  - intros list_children blockId cursor response next fuel blocks
      Hresp Hmore Hnext Hnext'.
    apply (fetchPages_goes_on list_children blockId cursor response next
             fuel blocks Hresp Hmore Hnext).
    destruct next; [now elim Hnext'|reflexivity].
  - intros list_children blockId fuel kids Hrun. split.
    + exact (fetchAllBlocks_served list_children fuel blockId kids Hrun).
    + unfold fetchMarkdown. now rewrite Hrun.
Qed.

(** *** 250 children in pages of 100, 100 and 50 *)

Lemma threePages_pages :
  servesPages (pagedProvider root threePages) root None threePages.
Proof.
  apply (serves_more _ root None
             {| results := firstn 100 children250; has_more := true;
                next_cursor := Some (cursorAt 1) |}
             (cursorAt 1) (tl threePages)); try reflexivity.
  apply (serves_more _ root (Some (cursorAt 1))
           {| results := firstn 100 (skipn 100 children250);
              has_more := true; next_cursor := Some (cursorAt 2) |}
           (cursorAt 2) (tl (tl threePages))); try reflexivity.
  apply (serves_last _ root (Some (cursorAt 2))
           {| results := skipn 200 children250; has_more := false;
              next_cursor := None |}); reflexivity.
Qed.

Lemma threePages_served :
  servesChildren (pagedProvider root threePages) root children250.
Proof.
  apply (serves_children _ root threePages children250).
  - exact threePages_pages.
  - apply (expandsAll_leaves _ children250). reflexivity.
Qed.

Lemma onePage_served :
  servesChildren (pagedProvider root [children250]) root children250.
Proof.
  apply (serves_children _ root [children250] children250).
  - apply (serves_last _ root None
             {| results := children250; has_more := false;
                next_cursor := None |}); reflexivity.
  - rewrite (app_nil_r children250 : List.concat [children250] = children250).
    apply expandsAll_leaves. reflexivity.
Qed.

(** The same three pages, the last one announcing more without a
    cursor. *)
Lemma openEnded_served :
  servesChildren (openEnded (pagedProvider root threePages)) root
    children250.
Proof.
  apply (serves_children _ root threePages children250).
  - apply (serves_more _ root None
             {| results := firstn 100 children250; has_more := true;
                next_cursor := Some (cursorAt 1) |}
             (cursorAt 1) (tl threePages)); try reflexivity.
    apply (serves_more _ root (Some (cursorAt 1))
             {| results := firstn 100 (skipn 100 children250);
                has_more := true; next_cursor := Some (cursorAt 2) |}
             (cursorAt 2) (tl (tl threePages))); try reflexivity.
    apply (serves_no_cursor _ root (Some (cursorAt 2))
             {| results := skipn 200 children250; has_more := true;
                next_cursor := None |}); reflexivity.
  - apply (expandsAll_leaves _ children250). reflexivity.
Qed.

(** C4 at work: 250 children in pages of 100, 100 and 50, and in one
    page; the same pages with a last answer that announces more and hands
    out no cursor; and a single page that announces no more and still
    carries a cursor, which the loop does not follow. *)
Lemma pagination_does_not_change_markdown_witness :
  map (@List.length Block) threePages = [100; 100; 50]
  /\ List.concat threePages = children250
  /\ (exists n, forall fuel, n <= fuel ->
        fetchAllBlocks fuel (pagedProvider root threePages) root
        = Done children250
        /\ fetchMarkdown fuel (pagedProvider root threePages) root
           = Done (blocksToMarkdown children250 0)
        /\ fetchMarkdown fuel (pagedProvider root threePages) root
           = fetchMarkdown fuel (pagedProvider root [children250]) root)
  /\ fetchPages 3 (pagedProvider root threePages) root None []
     = Done (List.concat threePages)
  /\ (exists n, forall fuel, n <= fuel ->
        fetchAllBlocks fuel (openEnded (pagedProvider root threePages)) root
        = Done children250
        /\ fetchMarkdown fuel (openEnded (pagedProvider root threePages))
             root
           = Done (blocksToMarkdown children250 0)
        /\ fetchMarkdown fuel (openEnded (pagedProvider root threePages))
             root
           = fetchMarkdown fuel (pagedProvider root [children250]) root)
  /\ fetchPages 1
       (lingering (pagedProvider root [children250]) (cursorAt 1))
       root None []
     = Done ([] ++ children250)
  /\ fetchPages 3 (pagedProvider root threePages) root None []
     = fetchPages 2 (pagedProvider root threePages) root
         (Some (cursorAt 1)) ([] ++ firstn 100 children250)
  /\ servesChildren (pagedProvider root threePages) root children250.
Proof.
  split; [reflexivity|]. split; [reflexivity|].
  split; [|split; [|split; [|split; [|split]]]].
  - exact (proj1 pagination_does_not_change_markdown
             (pagedProvider root threePages)
             (pagedProvider root [children250]) root root children250
             threePages_served onePage_served).
  - refine (proj1 (proj2 pagination_does_not_change_markdown)
              (pagedProvider root threePages) root threePages
              threePages_pages 3 _).
    simpl. lia.
  - exact (proj1 pagination_does_not_change_markdown
             (openEnded (pagedProvider root threePages))
             (pagedProvider root [children250]) root root children250
             openEnded_served onePage_served).
  - refine (proj1 (proj2 (proj2 pagination_does_not_change_markdown))
              (lingering (pagedProvider root [children250]) (cursorAt 1))
              root None
              {| results := children250; has_more := false;
                 next_cursor := Some (cursorAt 1) |}
              0 [] _ _); [reflexivity|left; reflexivity].
  - refine (proj1 (proj2 (proj2 (proj2 pagination_does_not_change_markdown)))
              (pagedProvider root threePages) root None
              {| results := firstn 100 children250; has_more := true;
                 next_cursor := Some (cursorAt 1) |}
              (cursorAt 1) 2 [] _ _ _ _);
      [reflexivity|reflexivity|reflexivity|discriminate].
  - refine (proj1 (proj2 (proj2 (proj2 (proj2
              pagination_does_not_change_markdown)))
              (pagedProvider root threePages) root 3 children250 _)).
    vm_compute. reflexivity.
Defined.

End PaginationFacts.

(** * Further properties *)

(** ** Escaping *)

Section EscapeFacts.

Import Markdown.

(** Splits on the six cases of [escapeUnit]. *)
Ltac escape_cases c :=
  unfold escapeUnit;
  destruct (N.eqb_spec c 38) as [?|?];
  [subst c
  |destruct (N.eqb_spec c 60) as [?|?];
   [subst c
   |destruct (N.eqb_spec c 62) as [?|?];
    [subst c
    |destruct (N.eqb_spec c 34) as [?|?];
     [subst c
     |destruct (N.eqb_spec c 39) as [?|?]; [subst c|]]]]].

Lemma escapeHtml_cons (c : codeunit) (s : jsstring) :
  escapeHtml (c :: s) = escapeUnit c ++ escapeHtml s.
Proof. reflexivity. Qed.

Lemma escapeHtml_app (s t : jsstring) :
  escapeHtml (s ++ t) = escapeHtml s ++ escapeHtml t.
Proof. apply flat_map_app. Qed.

Lemma escapeUnit_special (c : codeunit) :
  isSpecial c = false -> escapeUnit c = [c].
Proof.
  unfold isSpecial. intros H. escape_cases c; try discriminate H.
  reflexivity.
Qed.

Lemma escapeUnit_head (c : codeunit) :
  isSpecial c = true -> exists rest, escapeUnit c = 38%N :: rest.
Proof.
  unfold isSpecial. intros H. escape_cases c; try (eexists; reflexivity).
  exfalso. revert H. classes. lia.
Qed.

Lemma escapeHtml_length (s : jsstring) :
  List.length s <= List.length (escapeHtml s).
Proof.
  induction s as [|c s IH]; [apply le_n|].
  rewrite escapeHtml_cons, length_app. simpl.
  assert (1 <= List.length (escapeUnit c)) by (escape_cases c; simpl; lia).
  lia.
Qed.

(** Refutes [H : t = pre ++ 38 :: l] for a literal [t] without
    ampersand. *)
Ltac no_ampersand H pre :=
  destruct pre as [|? pre]; simpl in H;
  [discriminate H
  |first [discriminate H | injection H as _ H; no_ampersand H pre]].

(** The images of [escapeUnit] hold an ampersand at their head or
    nowhere. *)
Lemma escapeUnit_ampersand (c : codeunit) (pre l : jsstring) :
  escapeUnit c = pre ++ 38%N :: l -> pre = [].
Proof.
  intros H. destruct pre as [|p pre]; [reflexivity|]. exfalso. revert H.
  escape_cases c; simpl; intros H; injection H as _ H; no_ampersand H pre.
Qed.

Lemma escapeHtml_markup_free (s : jsstring) :
  Forall (fun c => c <> 60%N /\ c <> 62%N /\ c <> 34%N /\ c <> 39%N)
    (escapeHtml s).
Proof.
  induction s as [|c s IH]; [constructor|].
  rewrite escapeHtml_cons. apply Forall_app. split; [|exact IH].
  escape_cases c; repeat constructor; try discriminate; assumption.
Qed.

Lemma escapeHtml_ampersands (s pre post : jsstring) :
  escapeHtml s = pre ++ 38%N :: post ->
  startsWithEntity (38%N :: post) = true.
Proof.
  revert pre post. induction s as [|c s IH]; intros pre post Heq.
  - destruct pre; discriminate Heq.
  - rewrite escapeHtml_cons in Heq.
    destruct (app_eq_app _ _ _ _ Heq) as [l [[Hu Hp]|[_ Hs]]];
      [|exact (IH _ _ Hs)].
    destruct l as [|x l]; [exact (IH [] post (eq_sym Hp))|].
    injection Hp as <- ->.
    pose proof (escapeUnit_ampersand c pre l Hu) as ->.
    simpl in Hu. revert Hu.
    escape_cases c; intros Hu; injection Hu; intros; subst;
      try reflexivity.
    contradiction.
Qed.

(** X1.  Escaped text holds no angle bracket and no quote, and every
    ampersand in it begins one of the five entities. *)
Theorem escapeHtml_safe (s : jsstring) :
  Forall (fun c => c <> 60%N /\ c <> 62%N /\ c <> 34%N /\ c <> 39%N)
    (escapeHtml s)
  /\ forall pre post : jsstring,
       escapeHtml s = pre ++ 38%N :: post ->
       startsWithEntity (38%N :: post) = true.
Proof.
  split; [apply escapeHtml_markup_free|].
  intros pre post. apply escapeHtml_ampersands.
Qed.

(** X1 at work: the ampersand of an escaped bracket. *)
Lemma escapeHtml_safe_witness :
  escapeHtml (js "a<b") = js "a" ++ 38%N :: js "lt;b"
  /\ startsWithEntity (38%N :: js "lt;b") = true.
Proof.
  split; [reflexivity|].
  exact (proj2 (escapeHtml_safe (js "a<b")) (js "a") (js "lt;b") eq_refl).
Defined.

Lemma escapeUnit_inj (c d : codeunit) (a b : jsstring) :
  escapeUnit c ++ a = escapeUnit d ++ b -> c = d /\ a = b.
Proof.
  escape_cases c; escape_cases d; simpl; intros H;
    try discriminate H; try (injection H; intros; subst; auto; congruence).
Qed.

(** X2.  Escaping loses nothing: two texts with the same escaped form are
    the same text. *)
Theorem escapeHtml_injective (s t : jsstring) :
  escapeHtml s = escapeHtml t -> s = t.
Proof.
  revert t. induction s as [|c s IH]; intros [|d t] H.
  - reflexivity.
  - rewrite escapeHtml_cons in H. exfalso. revert H.
    escape_cases d; discriminate.
  - rewrite escapeHtml_cons in H. exfalso. revert H.
    escape_cases c; discriminate.
  - rewrite !escapeHtml_cons in H.
    destruct (escapeUnit_inj _ _ _ _ H) as [-> H']. now rewrite (IH t H').
Qed.

Lemma escapeHtml_injective_witness :
  escapeHtml (js "a<b") = escapeHtml (js "a" ++ js "<b")
  /\ js "a<b" = js "a" ++ js "<b".
Proof.
  split; [reflexivity|].
  apply (escapeHtml_injective (js "a<b") (js "a" ++ js "<b")). reflexivity.
Defined.

Lemma escapeHtml_fixed_iff (s : jsstring) :
  escapeHtml s = s <-> isClean s = true.
Proof.
  unfold isClean. induction s as [|c s IH]; [simpl; tauto|].
  rewrite escapeHtml_cons. simpl.
  rewrite Bool.andb_true_iff, Bool.negb_true_iff.
  destruct (isSpecial c) eqn:Hc.
  - split; [|intros [H _]; discriminate H].
    intros H. exfalso.
    destruct (escapeUnit_head c Hc) as [rest Hrest].
    pose proof (escapeHtml_length s) as Hlen.
    apply (f_equal (@List.length codeunit)) in H.
    rewrite length_app in H. simpl in H.
    assert (2 <= List.length (escapeUnit c)).
    { revert Hc. unfold isSpecial. escape_cases c; simpl; lia. }
    lia.
  - rewrite (escapeUnit_special c Hc). simpl. split.
    + intros [= H]. split; [reflexivity | now apply IH].
    + intros [_ H]. f_equal. now apply IH.
Qed.

Lemma escapeHtml_clean (s : jsstring) :
  isClean (escapeHtml s) = isClean s.
Proof.
  unfold isClean. induction s as [|c s IH]; [reflexivity|].
  rewrite escapeHtml_cons, forallb_app, IH. simpl. f_equal.
  destruct (isSpecial c) eqn:Hc.
  - destruct (escapeUnit_head c Hc) as [rest ->]. reflexivity.
  - rewrite (escapeUnit_special c Hc). simpl. now rewrite Hc.
Qed.

(** X3.  Escaping leaves a text as it is exactly when the text holds none
    of the five characters, and escaping twice gives the same as escaping
    once exactly in that case: text escaped already is escaped again. *)
Theorem escapeHtml_twice_iff (s : jsstring) :
  (escapeHtml s = s <-> isClean s = true)
  /\ (escapeHtml (escapeHtml s) = escapeHtml s <-> isClean s = true).
Proof.
  split; [apply escapeHtml_fixed_iff|].
  rewrite escapeHtml_fixed_iff, escapeHtml_clean. tauto.
Qed.

End EscapeFacts.

(** ** Entries and markup of the table of contents *)

Section TocMarkupFacts.

Import Markdown.

(** What holds of every entry the loop may push holds of every entry of
    the result. *)
Lemma tocLoop_Forall (P : TocEntry -> Prop) (tokens : list Token)
  (acc : list TocEntry) :
  (forall (t : jsstring) (l : N),
      ((2 <=? l) && (l <=? 3))%N = true ->
      P {| id := slugify t; text := t; level := l |}) ->
  Forall P acc -> Forall P (tocLoop tokens acc).
Proof.
  intros Hpush. revert acc.
  induction tokens as [|token later IH]; intros acc Hacc; simpl.
  - exact Hacc.
  - apply IH. unfold tocStep.
    destruct (eqb (type token) (js "heading_open")); [|exact Hacc].
    destruct (parseInt (slice1 (tag token))) as [l|]; [|exact Hacc].
    destruct ((2 <=? l) && (l <=? 3))%N eqn:Hl; [|exact Hacc].
    destruct later as [|contentToken later']; [exact Hacc|].
    destruct (eqb (type contentToken) (js "inline")); [|exact Hacc].
    apply Forall_app. split; [exact Hacc|].
    constructor; [|constructor]. exact (Hpush _ _ Hl).
Qed.

(** X4.  Whatever the token stream, every entry of the table of contents
    has level 2 or 3, carries the slug of its own text as id, and that id
    is made of the code units [a-z0-9_-] only. *)
Theorem extractToc_entries (tokens : list Token) :
  Forall
    (fun entry =>
       (level entry = 2%N \/ level entry = 3%N)
       /\ id entry = slugify (text entry)
       /\ Forall (fun c => isSlugUnit c = true) (id entry))
    (extractToc tokens).
Proof.
  unfold extractToc. apply tocLoop_Forall; [|constructor].
  intros t l Hl. simpl. repeat split.
  - revert Hl. classes. lia.
  - apply slugify_units.
Qed.

Lemma countUnit_app (c : codeunit) (s t : jsstring) :
  countUnit c (s ++ t) = countUnit c s + countUnit c t.
Proof. unfold countUnit. now rewrite filter_app, length_app. Qed.

Lemma countUnit_absent (c : codeunit) (s : jsstring) :
  Forall (fun d => d <> c) s -> countUnit c s = 0.
Proof.
  unfold countUnit. induction 1 as [|d s Hd Hs IH]; [reflexivity|].
  simpl. destruct (N.eqb_spec c d) as [->|_]; [contradiction | exact IH].
Qed.

(** The shape of an item: four literal stretches around the indent class,
    the id and the escaped text. *)
Lemma tocItem_parts (entry : TocEntry) :
  tocItem entry
  = (js "<li class=" ++ dq ++ js "toc-item ")
      ++ (if (level entry =? 3)%N then js "toc-indent" else [])
      ++ (dq ++ js "><a href=" ++ dq ++ js "#")
      ++ id entry
      ++ (dq ++ js ">")
      ++ escapeHtml (text entry)
      ++ js "</a></li>".
Proof. unfold tocItem. cbv zeta. now rewrite <- !app_assoc. Qed.

Lemma tocItem_counts (entry : TocEntry) (c : codeunit) (n : nat) :
  (c = 60%N \/ c = 62%N \/ c = 34%N) ->
  Forall (fun d => isSlugUnit d = true) (id entry) ->
  countUnit c
    ((js "<li class=" ++ dq ++ js "toc-item ")
       ++ (dq ++ js "><a href=" ++ dq ++ js "#")
       ++ (dq ++ js ">") ++ js "</a></li>") = n ->
  countUnit c (tocItem entry) = n.
Proof.
  intros Hc Hid Hn.
  assert (Hno_id : countUnit c (id entry) = 0).
  { apply countUnit_absent.
    apply (Forall_impl _ (P := fun d => isSlugUnit d = true));
      [|exact Hid].
    intros d Hd ->. revert Hd.
    destruct Hc as [ -> | [ -> | -> ] ]; discriminate. }
  assert (Hno_text : countUnit c (escapeHtml (text entry)) = 0).
  { apply countUnit_absent.
    apply (Forall_impl _ (P := fun d => d <> 60%N /\ d <> 62%N /\ d <> 34%N
                                      /\ d <> 39%N));
      [|exact (escapeHtml_markup_free (text entry))].
    intros d (H1 & H2 & H3 & _).
    destruct Hc as [ -> | [ -> | -> ] ]; assumption. }
  rewrite tocItem_parts.
  destruct (level entry =? 3)%N; rewrite !countUnit_app in *;
    rewrite Hno_id, Hno_text; destruct Hc as [ -> | [ -> | -> ] ];
    vm_compute in Hn |- *; exact Hn.
Qed.

(** X5.  Whatever the headings hold, the list item of every entry of the
    table of contents has exactly four opening angle brackets, four closing
    ones and four double quotes, those of its own tags and attributes: the
    text of a heading adds no markup to the table of contents. *)
Theorem tocItem_markup_fixed (tokens : list Token) :
  Forall
    (fun entry =>
       countUnit 60%N (tocItem entry) = 4
       /\ countUnit 62%N (tocItem entry) = 4
       /\ countUnit 34%N (tocItem entry) = 4)
    (extractToc tokens).
Proof.
  unfold extractToc. apply tocLoop_Forall; [|constructor].
  intros t l _.
  repeat split; apply tocItem_counts; auto; try reflexivity;
    simpl; apply slugify_units.
Qed.

End TocMarkupFacts.

(** ** Word count *)

Section WordFacts.

Import Markdown.

Lemma truthy_rev (s : jsstring) : truthy (rev s) = truthy s.
Proof.
  destruct s as [|c s]; [reflexivity|]. simpl.
  destruct (rev s); reflexivity.
Qed.

Lemma nonempty_truthy (s : jsstring) :
  Nat.ltb 0 (List.length s) = truthy s.
Proof. destruct s; reflexivity. Qed.

(** The pieces that count are the words. *)
Lemma splitSpace_words (s current : jsstring) (inRun : bool) :
  (inRun = true -> current = []) ->
  List.length
    (filter (fun word => Nat.ltb 0 (List.length word))
       (splitSpace current inRun s))
  = wordsFrom (truthy current) s.
Proof.
  revert current inRun.
  induction s as [|c r IH]; intros current inRun Hrun; simpl.
  - rewrite nonempty_truthy, truthy_rev. destruct (truthy current); reflexivity.
  - destruct (isSpace c).
    + destruct inRun.
      * rewrite (Hrun eq_refl). simpl. now apply IH.
      * pose proof (IH [] true (fun _ => eq_refl)) as Hrest.
        simpl in Hrest. rewrite <- Hrest. simpl.
        rewrite nonempty_truthy, truthy_rev.
        destruct (truthy current); reflexivity.
    + rewrite (IH (c :: current) false); [reflexivity | discriminate].
Qed.

Lemma countWords_wordsFrom (s : jsstring) :
  countWords s
  = wordsFrom false (filter (fun c => negb (isMarkupUnit c)) s).
Proof.
  unfold countWords. rewrite splitSpace_words; [reflexivity | discriminate].
Qed.

Lemma wordsFrom_space (inWord : bool) (a r : jsstring) (c : codeunit) :
  isSpace c = true ->
  wordsFrom inWord (a ++ c :: r) = wordsFrom inWord a + wordsFrom false r.
Proof.
  intros Hc. revert inWord.
  induction a as [|x a IH]; intros inWord; simpl.
  - rewrite Hc. destruct inWord; reflexivity.
  - destruct (isSpace x); rewrite IH; lia.
Qed.

Lemma wordsFrom_leading (ws b : jsstring) :
  forallb isSpace ws = true ->
  wordsFrom false (ws ++ b) = wordsFrom false b.
Proof.
  induction ws as [|c ws IH]; simpl; [reflexivity|].
  rewrite Bool.andb_true_iff. intros [Hc Hws]. now rewrite Hc, (IH Hws).
Qed.

Lemma space_not_markup (c : codeunit) :
  isSpace c = true -> isMarkupUnit c = false.
Proof.
  intros H. apply Bool.not_true_iff_false. intros Hm. revert H Hm.
  unfold isMarkupUnit. classes. lia.
Qed.

Lemma filter_spaces (ws : jsstring) :
  forallb isSpace ws = true ->
  filter (fun c => negb (isMarkupUnit c)) ws = ws.
Proof.
  induction ws as [|c ws IH]; simpl; [reflexivity|].
  rewrite Bool.andb_true_iff. intros [Hc Hws].
  now rewrite (space_not_markup c Hc), (IH Hws).
Qed.

(** X6.  The word count adds up over white space: the count of two texts
    with white space between them is the sum of their counts.  A text of
    nothing but white space and the markup characters [#*`[]()] counts no
    word. *)
Theorem countWords_additive :
  (forall a ws b : jsstring,
      ws <> [] -> forallb isSpace ws = true ->
      countWords (a ++ ws ++ b) = countWords a + countWords b)
  /\ (forall s : jsstring,
        forallb (fun c => isSpace c || isMarkupUnit c) s = true ->
        countWords s = 0).
Proof.
  split.
  - intros a ws b Hne Hws. rewrite !countWords_wordsFrom.
    rewrite !filter_app, (filter_spaces ws Hws).
    destruct ws as [|c ws]; [contradiction|].
    simpl in Hws. apply Bool.andb_true_iff in Hws as [Hc Hws].
    simpl app. rewrite (wordsFrom_space _ _ _ _ Hc).
    now rewrite (wordsFrom_leading ws _ Hws).
  - intros s Hs. rewrite countWords_wordsFrom.
    induction s as [|c s IH]; [reflexivity|].
    simpl in Hs. apply Bool.andb_true_iff in Hs as [Hc Hs]. simpl.
    destruct (isMarkupUnit c) eqn:Hm; simpl; [exact (IH Hs)|].
    rewrite Bool.orb_false_r in Hc. rewrite Hc. exact (IH Hs).
Qed.

(** X6 at work: a heading, two blanks and an emphasised word, and a line of
    markup alone. *)
Lemma countWords_additive_witness :
  countWords (js "# Hello" ++ js "  " ++ js "**world**")
  = countWords (js "# Hello") + countWords (js "**world**")
  /\ countWords (js "# ** `` ()") = 0.
Proof.
  split.
  - apply (proj1 countWords_additive); [discriminate | reflexivity].
  - apply (proj2 countWords_additive). reflexivity.
Defined.

End WordFacts.

(** ** The conversion routes *)

Section ConvertFacts.

Import Markdown.

Lemma orElse_truthy (x : option jsstring) (d : jsstring) :
  truthy d = true -> truthy (orElse x d) = true.
Proof.
  intros Hd. destruct x as [t|]; simpl; [|exact Hd].
  destruct (truthy t) eqn:Ht; [exact Ht | exact Hd].
Qed.

Lemma documentOptions_run (store : Themes.ThemeStore) (md : MarkdownIt)
  (pageNumbers : bool) (body : Convert.ConversionRequest)
  (content : jsstring) :
  exists themeId title,
    result (Convert.documentOptions store md pageNumbers body content)
    = {| Document.title := title;
         Document.content := renderTokens md (parse md content);
         Document.toc :=
           Some (if wantsToc body
                 then generateTocHtml (extractToc (parse md content))
                 else []);
         Document.themeId := themeId;
         Document.showToc := wantsToc body |}
    /\ truthy title = true.
Proof.
  unfold Convert.documentOptions, wantsToc, result.
  destruct (Convert.options body) as [o|]; simpl;
    eexists; eexists; (split; [reflexivity|]);
    repeat apply orElse_truthy; reflexivity.
Qed.

(** X7.  A preview request without content is answered with a bad request
    and the parser is not run.  Every other request is answered with the
    document built from the theme, the rendered content and the table of
    contents of the request, and with the title of that document, which is
    the title of the options, or else the first heading of level 1, or else
    [Document]: the title asked for when it is not empty, never the empty
    string, and the same in the answer and in the document.  The content
    is parsed twice on the way, once for the tokens and once to render. *)
Theorem handlePreview_title (store : Themes.ThemeStore) (md : MarkdownIt)
  (body : Convert.ConversionRequest) :
  (truthyOpt (Convert.content body) = false ->
   result (Convert.handlePreview store md body)
   = Convert.BadRequest (js "Content is required")
   /\ parserRuns (Convert.handlePreview store md body) = [])
  /\ (forall content : jsstring,
        Convert.content body = Some content ->
        content <> [] ->
        result (Convert.handlePreview store md body)
        = Convert.Ok
            {| Convert.html :=
                 Document.buildDocument store
                   {| Document.title := documentTitle md body content;
                      Document.content :=
                        renderTokens md (parse md content);
                      Document.toc :=
                        Some (if wantsToc body
                              then generateTocHtml
                                     (extractToc (parse md content))
                              else []);
                      Document.themeId := documentTheme store body;
                      Document.showToc := wantsToc body |};
               Convert.previewTitle := documentTitle md body content |}
        /\ parserRuns (Convert.handlePreview store md body)
           = [content; content]
        /\ documentTitle md body content <> []
        /\ (forall title, requestedTitle body = Some title ->
              title <> [] -> documentTitle md body content = title)
        /\ (truthyOpt (requestedTitle body) = false ->
            forall heading,
              extractTitle (parse md content) = Some heading ->
              heading <> [] -> documentTitle md body content = heading)
        /\ (truthyOpt (requestedTitle body) = false ->
            truthyOpt (extractTitle (parse md content)) = false ->
            documentTitle md body content = js "Document")).
Proof.
  split.
  - intros Hnone. unfold Convert.handlePreview. rewrite Hnone.
    split; reflexivity.
  - intros content Hcontent Hfull.
    assert (Htruthy : truthy content = true)
      by (destruct content; [now elim Hfull|reflexivity]).
    split; [|split; [|split; [|split; [|split]]]].
    + unfold Convert.handlePreview, Convert.documentOptions, documentTitle,
        documentTheme, requestedTitle, requestedTheme, wantsToc, result.
      rewrite Hcontent. simpl. rewrite Htruthy.
      destruct (Convert.options body) as [o|]; reflexivity.
    + unfold Convert.handlePreview, Convert.documentOptions, parserRuns.
      rewrite Hcontent. simpl. rewrite Htruthy.
      destruct (Convert.options body) as [o|]; reflexivity.
    + intros Hempty.
      assert (H : truthy (documentTitle md body content) = true)
        by (unfold documentTitle; repeat apply orElse_truthy; reflexivity).
      rewrite Hempty in H. discriminate H.
    + intros title Htitle Htitle'. unfold documentTitle. rewrite Htitle.
      destruct title; [now elim Htitle'|reflexivity].
    + intros Hnone heading Hheading Hheading'. unfold documentTitle.
      rewrite Hheading.
      destruct (requestedTitle body) as [[|c t]|];
        try discriminate Hnone;
        (destruct heading; [now elim Hheading'|reflexivity]).
    + intros Hnone Hnone'. unfold documentTitle.
      destruct (requestedTitle body) as [[|c t]|];
        try discriminate Hnone;
        (destruct (extractTitle (parse md content)) as [[|c' t']|];
         try discriminate Hnone'; reflexivity).
Qed.

(** X8.  The table-of-contents slot of the document that the routes build
    holds the markup of the entries when the request asks for a table of
    contents, and is empty otherwise; it is empty exactly when the request
    does not ask for one or the content has no heading of level 2 or 3 with
    inline content. *)
Theorem document_toc_slot (store : Themes.ThemeStore) (md : MarkdownIt)
  (pageNumbers : bool) (body : Convert.ConversionRequest)
  (content : jsstring) :
  let options :=
    result (Convert.documentOptions store md pageNumbers body content) in
  let slot :=
    Document.tocSlot (Document.showToc options) (Document.toc options) in
  slot = (if wantsToc body
          then generateTocHtml (extractToc (parse md content))
          else [])
  /\ (slot = [] <->
      wantsToc body = false \/ extractToc (parse md content) = []).
Proof.
  destruct (documentOptions_run store md pageNumbers body content)
    as (themeId & title & Hrun & _).
  cbv zeta. rewrite Hrun. simpl. unfold Document.tocSlot.
  destruct (wantsToc body); simpl.
  - destruct (extractToc (parse md content)) as [|entry entries] eqn:He.
    + split; [reflexivity|]. split; auto.
    + split; [reflexivity|]. split; [discriminate|].
      intros [H|H]; discriminate H.
  - split; [reflexivity|]. split; auto.
Qed.

(** X7 at work: a request without content and a request with the example
    document, whose title is its first heading of level 1. *)
Lemma handlePreview_title_witness :
  (result (Convert.handlePreview noThemes atx
             {| Convert.content := None; Convert.options := None |})
   = Convert.BadRequest (js "Content is required")
   /\ parserRuns (Convert.handlePreview noThemes atx
                    {| Convert.content := None; Convert.options := None |})
      = [])
  /\ result (Convert.handlePreview noThemes atx
               {| Convert.content := Some exampleInput;
                  Convert.options := None |})
     = Convert.Ok
         {| Convert.html :=
              Document.buildDocument noThemes
                {| Document.title := js "Title";
                   Document.content :=
                     renderTokens atx (parse atx exampleInput);
                   Document.toc :=
                     Some (generateTocHtml
                             (extractToc (parse atx exampleInput)));
                   Document.themeId := Themes.getDefaultThemeId;
                   Document.showToc := true |};
            Convert.previewTitle := js "Title" |}
  /\ parserRuns (Convert.handlePreview noThemes atx
                   {| Convert.content := Some exampleInput;
                      Convert.options := None |})
     = [exampleInput; exampleInput].
Proof.
  split; [|split].
  - exact (proj1 (handlePreview_title noThemes atx
                    {| Convert.content := None; Convert.options := None |})
             eq_refl).
  - refine (proj1 (proj2 (handlePreview_title noThemes atx
                    {| Convert.content := Some exampleInput;
                       Convert.options := None |})
             exampleInput eq_refl _)).
    discriminate.
  - refine (proj1 (proj2 (proj2 (handlePreview_title noThemes atx
                    {| Convert.content := Some exampleInput;
                       Convert.options := None |})
             exampleInput eq_refl _))).
    discriminate.
Defined.

End ConvertFacts.

(** ** Runs of spans and lists of blocks *)

Section CompositionFacts.

Lemma formatSpan_unformatted (text : RichText) :
  isUnformatted text = true -> formatSpan text = spanText text.
Proof.
  unfold isUnformatted, formatSpan, spanText, truthyOpt.
  rewrite !Bool.andb_true_iff, !Bool.negb_true_iff.
  intros [[[[-> ->] ->] ->] Hh].
  destruct (href text) as [h|]; [|reflexivity]. now rewrite Hh.
Qed.

(** X9.  A run of spans without annotation and without link is rendered
    as its texts, one after the other, verbatim. *)
Theorem richTextToMarkdown_plain (spans : list RichText) :
  forallb isUnformatted spans = true ->
  richTextToMarkdown (Some spans) = List.concat (map spanText spans).
Proof.
  intros H. unfold richTextToMarkdown. rewrite join_empty_concat. f_equal.
  induction spans as [|text spans IH]; [reflexivity|].
  simpl in H. apply Bool.andb_true_iff in H as [Ht Hs].
  simpl. now rewrite (formatSpan_unformatted text Ht), (IH Hs).
Qed.

Lemma richTextToMarkdown_plain_witness :
  forallb isUnformatted [span "a" plain None; span "*b*" plain None] = true
  /\ richTextToMarkdown (Some [span "a" plain None; span "*b*" plain None])
     = js "a*b*".
Proof.
  split; [reflexivity|].
  exact (richTextToMarkdown_plain
           [span "a" plain None; span "*b*" plain None] eq_refl).
Defined.

Lemma wrapIf_keeps (t : jsstring) (b : bool) (mark s : jsstring) :
  (exists pre post, s = pre ++ t ++ post) ->
  exists pre post, wrapIf b mark s = pre ++ t ++ post.
Proof.
  intros (pre & post & ->). destruct b; [|now exists pre, post].
  exists (mark ++ pre), (post ++ mark). unfold wrapIf.
  now rewrite <- !app_assoc.
Qed.

Lemma linkIf_keeps (t : jsstring) (h : option jsstring) (s : jsstring) :
  (exists pre post, s = pre ++ t ++ post) ->
  exists pre post, linkIf h s = pre ++ t ++ post.
Proof.
  intros (pre & post & ->). unfold linkIf.
  destruct h as [target|]; [|now exists pre, post].
  destruct (truthy target); [|now exists pre, post].
  exists (js "[" ++ pre), (post ++ js "](" ++ target ++ js ")").
  now rewrite <- !app_assoc.
Qed.

Lemma formatSpan_keeps_text (text : RichText) :
  exists pre post, formatSpan text = pre ++ spanText text ++ post.
Proof.
  rewrite formatSpan_composeAsWritten. unfold composeAsWritten.
  apply linkIf_keeps. do 4 apply wrapIf_keeps.
  exists [], []. unfold spanText. now rewrite app_nil_r.
Qed.

(** X10.  Rendering goes span by span: the rendering of two runs put
    together is the rendering of the first followed by that of the second,
    and the text of every span of a run stands verbatim in its
    rendering. *)
Theorem richTextToMarkdown_spanwise :
  (forall a b : list RichText,
      richTextToMarkdown (Some (a ++ b))
      = richTextToMarkdown (Some a) ++ richTextToMarkdown (Some b))
  /\ (forall (spans : list RichText) (text : RichText),
        In text spans ->
        exists pre post,
          richTextToMarkdown (Some spans) = pre ++ spanText text ++ post).
Proof.
  split.
  - intros a b. unfold richTextToMarkdown.
    now rewrite !join_empty_concat, map_app, concat_app.
  - intros spans text Hin. unfold richTextToMarkdown.
    rewrite join_empty_concat.
    destruct (in_split _ _ Hin) as (l1 & l2 & ->).
    rewrite map_app, concat_app. simpl.
    destruct (formatSpan_keeps_text text) as (pre & post & ->).
    exists (List.concat (map formatSpan l1) ++ pre),
      (post ++ List.concat (map formatSpan l2)).
    now rewrite <- !app_assoc.
Qed.

Lemma richTextToMarkdown_spanwise_witness :
  exists pre post,
    richTextToMarkdown
      (Some [span "a" plain None;
             span "b" {| bold := true; italic := false;
                         strikethrough := false; code := true |}
               (Some "http://x"%string)])
    = pre ++ js "b" ++ post.
Proof.
  apply (proj2 richTextToMarkdown_spanwise
           [span "a" plain None;
            span "b" {| bold := true; italic := false;
                        strikethrough := false; code := true |}
              (Some "http://x"%string)]
           (span "b" {| bold := true; italic := false;
                        strikethrough := false; code := true |}
              (Some "http://x"%string))).
  right. left. reflexivity.
Defined.

Lemma join_app (sep : jsstring) (l1 l2 : list jsstring) :
  l1 <> [] -> l2 <> [] ->
  join sep (l1 ++ l2) = join sep l1 ++ sep ++ join sep l2.
Proof.
  intros H1 H2. induction l1 as [|p l1 IH]; [contradiction|].
  destruct l1 as [|q l1].
  - simpl app. rewrite join_cons. destruct l2; [contradiction | reflexivity].
  - change ((p :: q :: l1) ++ l2) with (p :: (q :: l1) ++ l2).
    rewrite join_cons. simpl app at 1.
    rewrite IH by discriminate. rewrite (join_cons sep p (q :: l1)).
    now rewrite <- !app_assoc.
Qed.

Lemma joinBlocks_truthy (convert : Block -> jsstring) (blocks : list Block) :
  truthy (joinBlocks convert blocks)
  = existsb (fun b => truthy (convert b)) blocks.
Proof.
  unfold joinBlocks. rewrite pushLines_filter.
  rewrite (join_truthy _ _ (filter_truthy_Forall _)).
  induction blocks as [|b blocks IH]; [reflexivity|].
  simpl. destruct (truthy (convert b)); [reflexivity | exact IH].
Qed.

(** X11.  The markdown of a list of blocks is empty exactly when every
    block of the list gives an empty fragment, and the markdown of two
    lists put together is that of the first, a blank line, and that of the
    second, the blank line being left out when either side is empty. *)
Theorem blocksToMarkdown_composes (depth : nat) :
  (forall blocks : list Block,
      truthy (blocksToMarkdown blocks depth)
      = existsb (fun b => truthy (blockToMarkdown b depth)) blocks)
  /\ (forall a b : list Block,
        blocksToMarkdown (a ++ b) depth
        = if truthy (blocksToMarkdown a depth)
          then if truthy (blocksToMarkdown b depth)
               then blocksToMarkdown a depth ++ [10%N; 10%N]
                      ++ blocksToMarkdown b depth
               else blocksToMarkdown a depth
          else blocksToMarkdown b depth).
Proof.
  split; [intros blocks; apply joinBlocks_truthy|].
  intros a b. unfold blocksToMarkdown.
  set (convert := fun block => blockToMarkdown block depth).
  unfold joinBlocks. rewrite !pushLines_filter, map_app, filter_app.
  pose proof (join_truthy (nl ++ nl) _
                (filter_truthy_Forall (map convert a))) as Ha.
  pose proof (join_truthy (nl ++ nl) _
                (filter_truthy_Forall (map convert b))) as Hb.
  rewrite Ha, Hb.
  destruct (filter truthy (map convert a)) as [|pa la];
    [reflexivity|].
  destruct (filter truthy (map convert b)) as [|pb lb];
    [now rewrite app_nil_r|].
  rewrite join_app by discriminate. reflexivity.
Qed.

End CompositionFacts.

(** ** What retrieval returns *)

Section RetrievalResultFacts.

Variable list_children : Provider.

Lemma expanded_unfold (block : Block) :
  expanded block
  = if has_children block
    then match children block with
         | Some cs => forallb expanded cs
         | None => false
         end
    else true.
Proof. destruct block; reflexivity. Qed.

Lemma bare_setChildren (block : Block) (cs : list Block) :
  bare (setChildren block cs) = bare block.
Proof. reflexivity. Qed.

Lemma fillChildren_result (expand : jsstring -> Outcome (list Block))
  (blocks kids : list Block) :
  (forall i cs, expand i = Done cs -> forallb expanded cs = true) ->
  fillChildren expand blocks = Done kids ->
  forallb expanded kids = true
  /\ map bare kids = map bare blocks
  /\ forall b, In b blocks -> has_children b = true ->
       exists cs, expand (id b) = Done cs.
Proof.
  intros Hexpand. revert kids.
  induction blocks as [|block rest IH]; intros kids; simpl.
  - intros [= <-]. repeat split. intros b [].
  - destruct (has_children block) eqn:Hc.
    + destruct (expand (id block)) as [cs| |] eqn:He; simpl;
        try discriminate.
      destruct (fillChildren expand rest) as [rest'| |]; simpl;
        try discriminate.
      intros [= <-]. destruct (IH rest' eq_refl) as (He' & Hb & Hall).
      simpl. rewrite Hc, (Hexpand _ _ He), He', Hb. repeat split.
      intros b [<-|Hin] Hb'; [now exists cs | now apply Hall].
    + simpl.
      destruct (fillChildren expand rest) as [rest'| |]; simpl;
        try discriminate.
      intros [= <-]. destruct (IH rest' eq_refl) as (He' & Hb & Hall).
      simpl. rewrite expanded_unfold, Hc, He', Hb. repeat split.
      intros b [<-|Hin] Hb'; [congruence | now apply Hall].
Qed.

Lemma fetchAllBlocks_expanded (fuel : nat) :
  forall (blockId : jsstring) (kids : list Block),
    fetchAllBlocks fuel list_children blockId = Done kids ->
    forallb expanded kids = true.
Proof.
  induction fuel as [|fuel IH]; intros blockId kids; [discriminate|].
  rewrite fetchAllBlocks_S.
  destruct (fetchPages (S fuel) list_children blockId None [])
    as [raw| |]; simpl; try discriminate.
  intros H. exact (proj1 (fillChildren_result _ raw kids IH H)).
Qed.

Lemma fillChildren_filled (expand : jsstring -> Outcome (list Block))
  (blocks : list Block) :
  forall kids,
    fillChildren expand blocks = Done kids ->
    Forall2 (filledFrom expand) blocks kids.
Proof.
  induction blocks as [|block rest IH]; intros kids Hrun.
  - injection Hrun as <-. constructor.
  - rewrite fillChildren_cons in Hrun.
    destruct (fillOne expand block) as [block'| |] eqn:Hone;
      try discriminate Hrun.
    simpl in Hrun.
    destruct (fillChildren expand rest) as [rest'| |] eqn:Hrest;
      try discriminate Hrun.
    injection Hrun as <-.
    constructor; [|exact (IH rest' eq_refl)].
    unfold fillOne in Hone. unfold filledFrom.
    destruct (has_children block).
    + destruct (expand (id block)) as [cs| |] eqn:Hcs;
        try discriminate Hone.
      injection Hone as <-.
      split; [reflexivity|]. exists cs. split; reflexivity.
    + now injection Hone as <-.
Qed.

(** X12.  When retrieval returns, it returns the blocks of the pages,
    one for one and in their order.  A block that announces no children
    is returned as the provider gave it; a block that announces children
    is returned as the provider gave it but for its [children], which are
    the very list that the retrieval of the block's own id returns.  Hence
    every block that announces children has them, and so on below it, and
    the retrieval of the children of every such block returned as well. *)
Theorem fetchAllBlocks_result (fuel : nat) (blockId : jsstring)
  (kids : list Block) :
  fetchAllBlocks (S fuel) list_children blockId = Done kids ->
  forallb expanded kids = true
  /\ exists raw,
       fetchPages (S fuel) list_children blockId None [] = Done raw
       /\ Forall2 (filledFrom (fetchAllBlocks fuel list_children)) raw kids
       /\ map bare kids = map bare raw
       /\ forall b, In b raw -> has_children b = true ->
            exists cs,
              fetchAllBlocks fuel list_children (id b) = Done cs.
Proof.
  intros H. split; [exact (fetchAllBlocks_expanded (S fuel) blockId kids H)|].
  rewrite fetchAllBlocks_S in H.
  destruct (fetchPages (S fuel) list_children blockId None [])
    as [raw| |]; simpl in H; try discriminate.
  exists raw. split; [reflexivity|]. split.
  - exact (fillChildren_filled _ raw kids H).
  - exact (proj2 (fillChildren_result _ raw kids
                    (fetchAllBlocks_expanded fuel) H)).
Qed.



End RetrievalResultFacts.

Section RetrievalResultExamples.

(** X12 at work: a list item with one child.  The item comes back with
    the one block the provider holds below it, the paragraph after it as
    it was. *)
Lemma fetchAllBlocks_result_witness :
  fetchAllBlocks 2 nestedProvider (js "page")
  = Done [setChildren listItem [paragraph "c"]; paragraph "b"]
  /\ forallb expanded [setChildren listItem [paragraph "c"]; paragraph "b"]
     = true
  /\ exists raw,
       fetchPages 2 nestedProvider (js "page") None [] = Done raw
       /\ Forall2 (filledFrom (fetchAllBlocks 1 nestedProvider)) raw
            [setChildren listItem [paragraph "c"]; paragraph "b"]
       /\ map bare [setChildren listItem [paragraph "c"]; paragraph "b"]
          = map bare raw
       /\ forall b, In b raw -> has_children b = true ->
            exists cs, fetchAllBlocks 1 nestedProvider (id b) = Done cs.
Proof.
  split; [reflexivity|].
  exact (fetchAllBlocks_result nestedProvider 1 (js "page") _ eq_refl).
Defined.


End RetrievalResultExamples.

(** ** Page titles *)

Section PageTitleFacts.

Lemma truthyOpt_orElse (x : option jsstring) :
  truthyOpt x = true ->
  x = Some (orElse x []) /\ truthy (orElse x []) = true.
Proof.
  destruct x as [t|]; simpl; [|discriminate]. intros Ht. now rewrite Ht.
Qed.

Lemma property_In (page : Page) (name : jsstring) (prop : PageProperty) :
  property page name = Some prop ->
  exists entries key,
    properties page = Some entries /\ In (key, prop) entries.
Proof.
  unfold property. destruct (properties page) as [entries|]; [|discriminate].
  destruct (find (fun entry => eqb (fst entry) name) entries)
    as [[key prop']|] eqn:E; [|discriminate].
  intros [= <-]. exists entries, key. split; [reflexivity|].
  exact (proj1 (find_some _ _ E)).
Qed.

Lemma firstPlainText_Some (x : option PageProperty) :
  truthyOpt (firstPlainText x) = true -> exists prop, x = Some prop.
Proof. destruct x as [prop|]; [now exists prop | discriminate]. Qed.

(** X14.  The title of a page is never empty: it is the first plain text
    of the title of one of the properties of the page, or [Untitled]. *)
Theorem extractPageTitle_never_empty (page : Page) :
  truthy (extractPageTitle page) = true
  /\ (extractPageTitle page = js "Untitled"
      \/ exists entries key prop,
           properties page = Some entries
           /\ In (key, prop) entries
           /\ firstPlainText (Some prop) = Some (extractPageTitle page)).
Proof.
  unfold extractPageTitle.
  destruct (truthyOpt (firstPlainText (property page (js "title")))) eqn:H1.
  - destruct (truthyOpt_orElse _ H1) as [Heq Ht]. split; [exact Ht|]. right.
    destruct (firstPlainText_Some _ H1) as [prop Hp].
    destruct (property_In page _ prop Hp) as (entries & key & He & Hin).
    exists entries, key, prop. repeat split; auto. now rewrite <- Hp.
  - destruct (truthyOpt (firstPlainText (property page (js "Name"))))
      eqn:H2.
    + destruct (truthyOpt_orElse _ H2) as [Heq Ht]. split; [exact Ht|].
      right. destruct (firstPlainText_Some _ H2) as [prop Hp].
      destruct (property_In page _ prop Hp) as (entries & key & He & Hin).
      exists entries, key, prop. repeat split; auto. now rewrite <- Hp.
    + destruct (properties page) as [entries|] eqn:He;
        [|split; [reflexivity | now left]].
      destruct (find isTitleProperty (map snd entries)) as [prop|] eqn:Ef;
        [|split; [reflexivity | now left]].
      destruct (find_some _ _ Ef) as [Hin Htitle].
      assert (Ht : truthyOpt (firstPlainText (Some prop)) = true).
      { unfold isTitleProperty in Htitle.
        destruct (property_type prop); [|discriminate].
        now apply Bool.andb_true_iff in Htitle. }
      destruct (truthyOpt_orElse _ Ht) as [Heq Htruthy].
      split; [exact Htruthy|]. right.
      apply in_map_iff in Hin as ([key prop'] & Hsnd & Hin).
      simpl in Hsnd. subst prop'.
      exists entries, key, prop. repeat split; auto.
Qed.

End PageTitleFacts.

(** ** Page count *)

Section PageCountFacts.

Import Pdf.

Lemma stripPrefix_length (literal s rest : jsstring) :
  stripPrefix literal s = Some rest ->
  List.length s = List.length literal + List.length rest.
Proof.
  revert s. induction literal as [|c literal IH]; intros s; simpl.
  - now intros [= ->].
  - destruct s as [|d s]; [discriminate|].
    destruct (c =? d)%N; [|discriminate].
    intros H. simpl. now rewrite (IH s H).
Qed.

Lemma dropWhile_length (p : codeunit -> bool) (s : jsstring) :
  List.length (dropWhile p s) <= List.length s.
Proof.
  induction s as [|c s IH]; simpl; [lia|].
  destruct (p c); simpl; lia.
Qed.

(** A match is at least eleven code units long. *)
Lemma matchPage_length (s rest : jsstring) :
  matchPage s = Some rest -> List.length rest + 11 <= List.length s.
Proof.
  unfold matchPage.
  destruct (stripPrefix (js "/Type") s) as [afterType|] eqn:E1;
    [|discriminate].
  destruct (stripPrefix (js "/Page") (skipSpace afterType))
    as [[|c afterPage]|] eqn:E2; try discriminate.
  destruct (c =? 115)%N; [discriminate|]. intros [= <-].
  apply stripPrefix_length in E1, E2.
  pose proof (dropWhile_length isSpace afterType) as Hs.
  unfold skipSpace in E2. simpl in *. lia.
Qed.

Lemma countPages_bound (s : jsstring) (skip : nat) :
  11 * countPages skip s <= List.length s - skip.
Proof.
  revert skip. induction s as [|x r IH]; intros skip; [simpl; lia|].
  cbn [countPages]. destruct skip as [|k].
  - destruct (matchPage (x :: r)) as [rest|] eqn:E.
    + apply matchPage_length in E.
      change (List.length (x :: r)) with (S (List.length r)) in *.
      pose proof (IH (S (List.length r) - List.length rest - 1)) as H.
      lia.
    + pose proof (IH 0) as H.
      change (List.length (x :: r)) with (S (List.length r)). lia.
  - pose proof (IH k) as H.
    change (List.length (x :: r)) with (S (List.length r)). lia.
Qed.

Lemma skipSpace_spaces (ws s : jsstring) (c : codeunit) :
  forallb isSpace ws = true -> isSpace c = false ->
  skipSpace (ws ++ c :: s) = c :: s.
Proof.
  intros Hws Hc. unfold skipSpace.
  induction ws as [|w ws IH]; simpl.
  - now rewrite Hc.
  - simpl in Hws. apply Bool.andb_true_iff in Hws as [Hw Hws].
    rewrite Hw. exact (IH Hws).
Qed.

(** X15.  The estimate is at least one page and at most one page for
    every eleven bytes of a buffer that holds a match.  After [/Type] and
    any white space, [/Page] followed by any byte but [s] counts as a page,
    and [/Pages], the node of the page tree, does not. *)
Theorem estimatePageCount_bounds :
  (forall content : jsstring,
      1 <= estimatePageCount content
      /\ 11 * estimatePageCount content
         <= Nat.max 11 (List.length content))
  /\ (forall (ws rest : jsstring) (c : codeunit),
        forallb isSpace ws = true ->
        matchPage (js "/Type" ++ ws ++ js "/Page" ++ c :: rest)
        = if (c =? 115)%N then None else Some rest).
Proof.
  split.
  - intros content. unfold estimatePageCount.
    pose proof (countPages_bound content 0) as H.
    destruct (Nat.eqb_spec (countPages 0 content) 0) as [E|E]; lia.
  - intros ws rest c Hws. unfold matchPage.
    assert (E1 : stripPrefix (js "/Type")
                   (js "/Type" ++ ws ++ js "/Page" ++ c :: rest)
                 = Some (ws ++ js "/Page" ++ c :: rest)) by reflexivity.
    assert (E2 : skipSpace (ws ++ js "/Page" ++ c :: rest)
                 = js "/Page" ++ c :: rest).
    { exact (skipSpace_spaces ws (js "Page" ++ c :: rest) 47%N Hws
               eq_refl). }
    rewrite E1, E2. reflexivity.
Qed.

(** X15 at work: a page object and the node of the page tree. *)
Lemma estimatePageCount_bounds_witness :
  matchPage (js "/Type" ++ js " " ++ js "/Page" ++ js "s /Kids")
  = None
  /\ matchPage (js "/Type" ++ js " " ++ js "/Page" ++ js " /Parent")
     = Some (js "/Parent").
Proof.
  split.
  - exact (proj2 estimatePageCount_bounds (js " ") (js " /Kids") 115%N
             eq_refl).
  - exact (proj2 estimatePageCount_bounds (js " ") (js "/Parent") 32%N
             eq_refl).
Defined.

End PageCountFacts.

(** ** File names *)

Section FilenameFacts.

Import Download.

Ltac name_classes :=
  unfold isNameUnit, isFilenameUnit in *; classes.

(** Letters of either case, digits and the hyphen. *)
Let isPlain (c : codeunit) : bool :=
  isLower c || isUpper c || isDigit c || (c =? hyphen)%N.

Lemma collapseSpaceFrom_plain (b : bool) (s : jsstring) :
  Forall (fun c => isFilenameUnit c = true) s ->
  Forall (fun c => isPlain c = true) (collapseSpaceFrom b s).
Proof.
  intros H. revert b.
  induction H as [|c s Hc Hs IH]; intros b; simpl; [constructor|].
  destruct (isSpace c) eqn:Hsp.
  - destruct b; [apply IH|]. constructor; [reflexivity | apply IH].
  - constructor; [|apply IH].
    unfold isPlain. unfold isFilenameUnit in Hc. rewrite Hsp in Hc.
    now rewrite Bool.orb_false_r in Hc.
Qed.

Lemma lowerUnit_plain (c : codeunit) :
  isPlain c = true -> Forall (fun d => isNameUnit d = true) (lowerUnit c).
Proof.
  unfold isPlain. intros H.
  assert (H1 : (c =? 304)%N = false) by (revert H; name_classes; lia).
  assert (H2 : (c =? 8490)%N = false) by (revert H; name_classes; lia).
  assert (H3 : isUpper c = false -> isNameUnit c = true).
  { revert H. name_classes. lia. }
  assert (H4 : isUpper c = true -> isNameUnit (c + 32)%N = true).
  { name_classes. lia. }
  unfold lowerUnit. destruct (isUpper c).
  - constructor; [auto | constructor].
  - rewrite H1, H2. constructor; [auto | constructor].
Qed.

Lemma toLowerCase_plain (s : jsstring) :
  Forall (fun c => isPlain c = true) s ->
  Forall (fun d => isNameUnit d = true) (toLowerCase s).
Proof.
  unfold toLowerCase. induction 1 as [|c s Hc Hs IH]; simpl; [constructor|].
  apply Forall_app. split; [now apply lowerUnit_plain | exact IH].
Qed.

Lemma firstn_Forall (P : codeunit -> Prop) (n : nat) (s : jsstring) :
  Forall P s -> Forall P (firstn n s).
Proof.
  intros H. revert n. induction H as [|c s Hc Hs IH]; intros [|n]; simpl;
    constructor; auto.
Qed.

Lemma filter_kept (s : jsstring) :
  Forall (fun c => isFilenameUnit c = true) (filter isFilenameUnit s).
Proof. apply Forall_forall. intros c Hc. apply filter_In in Hc. tauto. Qed.

Lemma sanitizeFilename_units (name : option jsstring) :
  Forall (fun c => isNameUnit c = true) (sanitizeFilename name).
Proof.
  unfold sanitizeFilename, sliceTo, collapseSpace.
  apply firstn_Forall, toLowerCase_plain, collapseSpaceFrom_plain, filter_kept.
Qed.

Lemma sanitizeFilename_length (name : option jsstring) :
  List.length (sanitizeFilename name) <= 50.
Proof. apply firstn_le_length. Qed.

(** X16.  A sanitised file name is at most 50 code units long and made of
    [a-z], [0-9] and the hyphen only, whatever the name. *)
Theorem sanitizeFilename_safe (name : option jsstring) :
  List.length (sanitizeFilename name) <= 50
  /\ Forall (fun c => isNameUnit c = true) (sanitizeFilename name).
Proof.
  split; [apply sanitizeFilename_length | apply sanitizeFilename_units].
Qed.

Section OnNames.

Variable r : jsstring.
Hypothesis Hr : Forall (fun c => isNameUnit c = true) r.

Lemma nameUnit_kept (c : codeunit) :
  isNameUnit c = true -> isFilenameUnit c = true.
Proof. name_classes. lia. Qed.

Lemma nameUnit_not_space (c : codeunit) :
  isNameUnit c = true -> isSpace c = false.
Proof.
  intros H. apply Bool.not_true_iff_false. intros Hs. revert H Hs.
  name_classes. lia.
Qed.

Lemma nameUnit_lower (c : codeunit) :
  isNameUnit c = true -> lowerUnit c = [c].
Proof.
  intros H. unfold lowerUnit.
  assert (H0 : isUpper c = false).
  { apply Bool.not_true_iff_false. intros Hu. revert H Hu.
    name_classes. lia. }
  assert (H1 : (c =? 304)%N = false) by (revert H; name_classes; lia).
  assert (H2 : (c =? 8490)%N = false) by (revert H; name_classes; lia).
  now rewrite H0, H1, H2.
Qed.

Lemma name_filter : filter isFilenameUnit r = r.
Proof.
  induction Hr as [|c s Hc Hs IH]; simpl; [reflexivity|].
  now rewrite (nameUnit_kept c Hc), IH.
Qed.

Lemma name_collapse (b : bool) : collapseSpaceFrom b r = r.
Proof.
  revert b. induction Hr as [|c s Hc Hs IH]; intros b; simpl; [reflexivity|].
  now rewrite (nameUnit_not_space c Hc), IH.
Qed.

Lemma name_lower : toLowerCase r = r.
Proof.
  unfold toLowerCase. induction Hr as [|c s Hc Hs IH]; simpl; [reflexivity|].
  now rewrite (nameUnit_lower c Hc), IH.
Qed.

End OnNames.

Lemma filter_none (s : jsstring) :
  forallb (fun c => negb (isFilenameUnit c)) s = true ->
  filter isFilenameUnit s = [].
Proof.
  induction s as [|c s IH]; simpl; [reflexivity|].
  rewrite Bool.andb_true_iff, Bool.negb_true_iff. intros [-> Hs].
  exact (IH Hs).
Qed.

(** X17.  Sanitising is stable on its results but for the empty one: a
    sanitised name that is not empty is left as it is when sanitised again.
    A name that is not empty and holds no letter, digit, white space or
    hyphen is sanitised to the empty name, not to [document], which is the
    name only of a missing or empty one. *)
Theorem sanitizeFilename_stable :
  (forall name : option jsstring,
      sanitizeFilename name <> [] ->
      sanitizeFilename (Some (sanitizeFilename name)) = sanitizeFilename name)
  /\ (forall name : jsstring,
        name <> [] ->
        forallb (fun c => negb (isFilenameUnit c)) name = true ->
        sanitizeFilename (Some name) = [])
  /\ sanitizeFilename None = js "document"
  /\ sanitizeFilename (Some []) = js "document".
Proof.
  split; [|split; [|split; reflexivity]].
  - intros name Hne.
    pose proof (sanitizeFilename_length name) as Hlen.
    pose proof (sanitizeFilename_units name) as Hunits.
    set (r := sanitizeFilename name) in *.
    unfold sanitizeFilename at 1. unfold sliceTo, collapseSpace.
    assert (Hor : orElse (Some r) (js "document") = r).
    { destruct r; [contradiction | reflexivity]. }
    rewrite Hor, (name_filter r Hunits), (name_collapse r Hunits),
      (name_lower r Hunits).
    now apply firstn_all2.
  - intros name Hne Hnone. unfold sanitizeFilename.
    assert (Hor : orElse (Some name) (js "document") = name).
    { destruct name; [contradiction | reflexivity]. }
    now rewrite Hor, (filter_none name Hnone).
Qed.

(** X17 at work: a title with capitals and blanks, and a title of
    punctuation only. *)
Lemma sanitizeFilename_stable_witness :
  sanitizeFilename (Some (js "My Report: v2!")) = js "my-report-v2"
  /\ sanitizeFilename (Some (sanitizeFilename (Some (js "My Report: v2!"))))
     = sanitizeFilename (Some (js "My Report: v2!"))
  /\ sanitizeFilename (Some (js "?!")) = [].
Proof.
  split; [reflexivity|]. split.
  - apply (proj1 sanitizeFilename_stable (Some (js "My Report: v2!"))).
    discriminate.
  - apply (proj1 (proj2 sanitizeFilename_stable) (js "?!"));
      [discriminate | reflexivity].
Defined.

End FilenameFacts.

(** ** More on page identifiers and fragments *)

Section MoreFacts.

Lemma removeHyphens_hexOnly (m : jsstring) :
  forallb isHexOrHyphen m = true -> forallb isHex (removeHyphens m) = true.
Proof.
  unfold removeHyphens. induction m as [|c m IH]; simpl; [reflexivity|].
  rewrite Bool.andb_true_iff. intros [Hc Hm].
  destruct (N.eqb_spec c hyphen) as [->|Hne]; simpl; [exact (IH Hm)|].
  rewrite (IH Hm), Bool.andb_true_r.
  unfold isHexOrHyphen in Hc. apply Bool.orb_true_iff in Hc as [Hc|Hc];
    [exact Hc|].
  apply N.eqb_eq in Hc. contradiction.
Qed.

Lemma removeHyphens_length (m : jsstring) :
  List.length (removeHyphens m) <= List.length m.
Proof. apply filter_length_le. Qed.

(** X18.  Whatever extraction returns is made of hexadecimal digits only,
    at most 36 of them: no hyphen, no part of the URL around the id. *)
Theorem extractPageId_hex_only (s r : jsstring) :
  extractPageId s = Some r ->
  forallb isHex r = true /\ List.length r <= 36.
Proof.
  intros H.
  destruct (extractPageId_id_or_third_branch s r H)
    as [Hid|(_ & _ & m & Hm & ->)].
  - destruct (hexRun_inv _ _ Hid) as [-> F]. split; [exact F | lia].
  - destruct (search_Some_run _ _ _ _ Hm) as [L F]. split.
    + now apply removeHyphens_hexOnly.
    + pose proof (removeHyphens_length m). lia.
Qed.

Lemma extractPageId_hex_only_witness :
  extractPageId
    (js "https://www.notion.so/a-bad-cafe-"
       ++ js "0123456789abcdef0123456789abcdef?v=1")
  = Some (js "0123456789abcdef0123456789abcdef")
  /\ forallb isHex (js "0123456789abcdef0123456789abcdef") = true
  /\ List.length (js "0123456789abcdef0123456789abcdef") <= 36.
Proof.
  split; [reflexivity|].
  exact (extractPageId_hex_only
           (js "https://www.notion.so/a-bad-cafe-"
              ++ js "0123456789abcdef0123456789abcdef?v=1")
           _ eq_refl).
Defined.

Lemma truthy_app_r (p q : jsstring) :
  truthy q = true -> truthy (p ++ q) = true.
Proof. destruct p; [auto | reflexivity]. Qed.

(** X19.  Headings, list items, to-dos, toggles, code blocks, quotes,
    callouts and dividers always leave a fragment, whatever their text and
    children: a block whose fragment is empty is a paragraph, an image, a
    bookmark, a link preview, a table, a table row, a column list, a column
    or a block of unknown kind. *)
Theorem blockToMarkdown_empty_kinds (block : Block) (depth : nat) :
  blockToMarkdown block depth = [] ->
  mayVanish (kindOf (type block)) = true.
Proof.
  destruct block as [i t d h c]. simpl.
  destruct (kindOf t); try reflexivity; intros H;
    apply (f_equal truthy) in H; simpl in H; try discriminate H;
    rewrite truthy_app_r in H; try discriminate H; reflexivity.
Qed.

Lemma blockToMarkdown_empty_kinds_witness :
  blockToMarkdown (mkBlock (js "p") (js "paragraph") emptyData false None) 0
  = []
  /\ mayVanish (kindOf (js "paragraph")) = true.
Proof.
  split; [reflexivity|].
  exact (blockToMarkdown_empty_kinds
           (mkBlock (js "p") (js "paragraph") emptyData false None) 0
           eq_refl).
Defined.

End MoreFacts.
